(** * hostinfo: resolve targets and enrich them with Shodan / ipinfo data

    A shallow embedding of [main.go].  The program is sequential glue
    around the network, so the embedding threads an explicit [State]
    (the global [cachedResponses] map, the two output streams and a log
    of the network calls issued so far) through the functions of the
    source, and takes the answers of the outside world (DNS, HTTP,
    encoding/json, the file system) from a [World] record. *)

From Stdlib Require Import ZArith Ascii String List Lia.
From stdpp Require Import base option list gmap strings.
From Equations Require Import Equations.

Open Scope string_scope.
Open Scope list_scope.
Open Scope stdpp_scope.

(** ** Go values *)

(** The line feed and carriage return bytes, and the one-byte string
    written as a backslash followed by n in Go. *)
Definition LF : ascii := "010"%char.
Definition CR : ascii := "013"%char.
Definition nl : string := String LF EmptyString.

(** A Go [error]: [None] is [nil], [Some msg] an error whose [Error()]
    text is [msg]. *)
Definition error := option string.

(** What a library call hands back: a value, or an error. *)
Inductive Result (A : Type) : Type :=
| Ok (a : A)
| Err (msg : string).
Arguments Ok {A} a.
Arguments Err {A} msg.

(** A Go slice; [None] is the nil slice (encoded as [null]), which
    differs from an allocated empty one (encoded as an empty array). *)
Definition slice (A : Type) := option (list A).

(** ** Data model (main.go, lines 16-40) *)

Record IPInfoResponse := mkIPInfo {
  Hostname : string;
  City     : string;
  Region   : string;
  Country  : string;
  Loc      : string;
  Org      : string;
  Postal   : string;
  Timezone : string
}.

Record ShodanResponse := mkShodan {
  Hostnames : slice string;
  Ports     : slice Z;
  CPEs      : slice string;
  Tags      : slice string;
  Vulns     : slice string
}.

(** [CombinedResponse] embeds the two records; the embedded fields are
    reached in the source as [combined.IPInfoResponse] and
    [combined.ShodanResponse]. *)
Record CombinedResponse := mkCombined {
  Target     : string;
  IP         : string;
  emb_IPInfo : IPInfoResponse;
  emb_Shodan : ShodanResponse
}.

(** The zero values [IPInfoResponse{}], [ShodanResponse{}] and
    [var combined CombinedResponse]. *)
Definition zeroIPInfo : IPInfoResponse := mkIPInfo "" "" "" "" "" "" "" "".
Definition zeroShodan : ShodanResponse := mkShodan None None None None None.
Definition zeroCombined : CombinedResponse :=
  mkCombined "" "" zeroIPInfo zeroShodan.

(** [combined.Target = target] *)
Definition set_Target (target : string) (c : CombinedResponse) : CombinedResponse :=
  mkCombined target (IP c) (emb_IPInfo c) (emb_Shodan c).

(** [net.IPAddr]: the address in its textual form, and the IPv6 zone. *)
Record IPAddr := mkIPAddr { addr_IP : string; addr_Zone : string }.

(** The [String] method of [IPAddr]: the zone, when present, follows a
    percent sign. *)
Definition IPAddr_String (a : IPAddr) : string :=
  if decide (addr_Zone a = "") then addr_IP a
  else addr_IP a +:+ "%" +:+ addr_Zone a.

(** ** Input streams *)

(** How a stream ends once its bytes are consumed: cleanly ([io.EOF]) or
    with a read failure. *)
Inductive readError :=
| io_EOF
| ReadFailure (msg : string).

Record Stream := mkStream { stream_data : string; stream_end : readError }.

(** ** The outside world *)

(** Answers of the libraries and services the program talks to.  The
    [nat] argument of the network calls is the number of network calls
    issued before, so the same question may get a different answer
    later in the run. *)
Record World := mkWorld {
  (** [net.ParseIP target != nil] *)
  net_ParseIP : string -> bool;
  (** [resolver.LookupIPAddr]; the first argument is [argResolver] *)
  net_LookupIPAddr : string -> nat -> string -> Result (list IPAddr);
  (** [http.Get url]: the response body *)
  http_Get : nat -> string -> Result string;
  (** [json.NewDecoder(body).Decode] into either record *)
  json_Decode_Shodan : string -> Result ShodanResponse;
  json_Decode_IPInfo : string -> Result IPInfoResponse;
  (** [json.MarshalIndent(v, "", "  ")] and [json.Marshal(v)] *)
  json_MarshalIndent : CombinedResponse -> Result string;
  json_Marshal : CombinedResponse -> Result string;
  (** [os.Stat(name)] answered without error *)
  os_Stat : string -> bool;
  (** [os.Open(name)] *)
  os_Open : string -> Result Stream;
  (** [os.Stdin.Stat()]: is the character-device mode bit set *)
  os_Stdin_Stat : Result bool;
  os_Stdin : Stream;
  (** [os.Args[0]] and the text of [flag.PrintDefaults()] *)
  os_Args0 : string;
  flag_PrintDefaults : string
}.

(** ** Program state *)

(** One network call, as logged. *)
Inductive Event :=
| EvLookup (hostname : string)
| EvGet (url : string).

#[global] Instance Event_eq_dec : EqDecision Event.
Proof. solve_decision. Defined.

Record State := mkState {
  cachedResponses : gmap string CombinedResponse;
  trace  : list Event;
  stdout : list string;
  stderr : list string
}.

(** The number of network calls made so far. *)
Definition now (s : State) : nat := length (trace s).

Definition initState : State := mkState ∅ [] [] [].

(** ** A small state monad *)

Definition M (A : Type) : Type := State -> A * State.

Definition ret {A} (a : A) : M A := fun s => (a, s).

Definition bind {A B} (m : M A) (k : A -> M B) : M B :=
  fun s => let (a, s') := m s in k a s'.

#[global] Instance M_ret : MRet M := @ret.
#[global] Instance M_bind : MBind M := fun A B k m => bind m k.

Definition get_cache : M (gmap string CombinedResponse) :=
  fun s => (cachedResponses s, s).

Definition set_cache (c : gmap string CombinedResponse) : M unit :=
  fun s => (tt, mkState c (trace s) (stdout s) (stderr s)).

(** Log a network call. *)
Definition emit (e : Event) : M unit :=
  fun s => (tt, mkState (cachedResponses s) (trace s ++ [e]) (stdout s) (stderr s)).

(** [fmt.Println(text)] *)
Definition Println (text : string) : M unit :=
  fun s => (tt, mkState (cachedResponses s) (trace s) (stdout s ++ [text +:+ nl]) (stderr s)).

(** [fmt.Fprint(os.Stderr, text)] *)
Definition Eprint (text : string) : M unit :=
  fun s => (tt, mkState (cachedResponses s) (trace s) (stdout s) (stderr s ++ [text])).

(** ** The pipeline (main.go, lines 56-168) *)

Section Pipeline.

Variable W : World.
(** The [-r] flag. *)
Variable argResolver : string.

Definition shodanURL (ip : string) : string :=
  "https://internetdb.shodan.io/" +:+ ip.

Definition ipinfoURL (ip : string) : string :=
  "https://ipinfo.io/" +:+ ip +:+ "/json".

Definition fetchShodanData (ip : string) : M (ShodanResponse * error) :=
  fun s =>
    let resp := http_Get W (now s) (shodanURL ip) in
    let (_, s) := emit (EvGet (shodanURL ip)) s in
    match resp with
    | Err e => ((zeroShodan, Some e), s)
    | Ok body =>
        match json_Decode_Shodan W body with
        | Err e => ((zeroShodan, Some e), s)
        | Ok shodanData => ((shodanData, None), s)
        end
    end.

Definition fetchIPInfoData (ip : string) : M (IPInfoResponse * error) :=
  fun s =>
    let resp := http_Get W (now s) (ipinfoURL ip) in
    let (_, s) := emit (EvGet (ipinfoURL ip)) s in
    match resp with
    | Err e => ((zeroIPInfo, Some e), s)
    | Ok body =>
        match json_Decode_IPInfo W body with
        | Err e => ((zeroIPInfo, Some e), s)
        | Ok ipInfoData => ((ipInfoData, None), s)
        end
    end.

Definition resolveHostname (hostname : string) : M (string * error) :=
  fun s =>
    let ips := net_LookupIPAddr W argResolver (now s) hostname in
    let (_, s) := emit (EvLookup hostname) s in
    match ips with
    | Err e => (("", Some e), s)
    | Ok [] => (("", Some ("no IP addresses found for hostname " +:+ hostname)), s)
    | Ok (ip0 :: _) => ((IPAddr_String ip0, None), s)
    end.

(** Lines 109-118 of [processTarget]: the address the target stands for. *)
Definition resolveTarget (target : string) : M (string * error) :=
  if net_ParseIP W target then ret (target, None)
  else resolveHostname target.

Definition processTarget (target : string) : M (CombinedResponse * error) :=
  '(ip, err) ← resolveTarget target;
  match err with
  | Some e => ret (zeroCombined, Some e)
  | None =>
      cache ← get_cache;
      match cache !! ip with
      | Some combined => ret (set_Target target combined, None)
      | None =>
          '(shodanData, _) ← fetchShodanData ip;
          '(ipInfoData, err) ← fetchIPInfoData ip;
          match err with
          | Some e => ret (zeroCombined, Some e)
          | None =>
              let combined := mkCombined target ip ipInfoData shodanData in
              set_cache (<[ip := combined]> cache);;
              ret (combined, None)
          end
      end
  end.

(** The body of the loop of [processTargets]. *)
Definition processOne (singleTarget : bool) (target : string) : M unit :=
  '(combinedData, err) ← processTarget target;
  match err with
  | Some e =>
      Eprint ("Error processing target " +:+ target +:+ ": " +:+ e +:+ nl)
  | None =>
      match json_MarshalIndent W combinedData with
      | Err e =>
          Eprint ("Error marshalling data for target " +:+ target +:+ ": " +:+ e +:+ nl)
      | Ok jsonData =>
          if singleTarget then Println jsonData
          else
            match json_Marshal W combinedData with
            | Err e =>
                Eprint ("Error marshalling data for target " +:+ target +:+ ": " +:+ e +:+ nl)
            | Ok jsonData => Println jsonData
            end
      end
  end.

(** [for _, target := range targets { ... }] *)
Fixpoint forTargets (singleTarget : bool) (targets : list string) : M unit :=
  match targets with
  | [] => ret tt
  | target :: rest =>
      processOne singleTarget target;;
      forTargets singleTarget rest
  end.

Definition processTargets (targets : list string) (singleTarget : bool) : M unit :=
  set_cache ∅;;
  forTargets singleTarget targets.

End Pipeline.

(** ** Reading the targets (main.go, lines 170-230) *)

(** *** strings.TrimSpace *)

(** The white space of [unicode.IsSpace] beyond ASCII, in UTF-8: U+0085
    and U+00A0 take two bytes; U+1680, U+2000 to U+200A, U+2028, U+2029,
    U+202F, U+205F and U+3000 take three. *)
Definition isSpace2 (a b : ascii) : bool :=
  let a := nat_of_ascii a in
  let b := nat_of_ascii b in
  ((a =? 194) && ((b =? 133) || (b =? 160)))%nat.

Definition isSpace3 (a b c : ascii) : bool :=
  let a := nat_of_ascii a in
  let b := nat_of_ascii b in
  let c := nat_of_ascii c in
  (((a =? 225) && (b =? 154) && (c =? 128))
   || ((a =? 226) && (b =? 128)
       && (((128 <=? c) && (c <=? 138)) || (c =? 168) || (c =? 169) || (c =? 175)))
   || ((a =? 226) && (b =? 129) && (c =? 159))
   || ((a =? 227) && (b =? 128) && (c =? 128)))%nat.

(** Drop the white space runes at the front of [s].  With [back] set,
    [s] is read as a reversed string, so the bytes of a rune come last
    byte first. *)
Fixpoint dropSpace (back : bool) (s : string) : string :=
  match s with
  | String a s1 =>
      if Ascii.is_space a then dropSpace back s1
      else
        match s1 with
        | String b s2 =>
            if (if back then isSpace2 b a else isSpace2 a b)
            then dropSpace back s2
            else
              match s2 with
              | String c s3 =>
                  if (if back then isSpace3 c b a else isSpace3 a b c)
                  then dropSpace back s3
                  else s
              | EmptyString => s
              end
        | EmptyString => s
        end
  | EmptyString => s
  end.

Definition TrimSpace (s : string) : string :=
  String.rev (dropSpace true (String.rev (dropSpace false s))).

(** *** bufio.Reader.ReadString and bufio.Scanner *)

(** Cut [s] at its first line feed: the bytes before it, and the bytes
    after it. *)
Fixpoint cutLine (s : string) : option (string * string) :=
  match s with
  | EmptyString => None
  | String c rest =>
      if Ascii.eqb c LF then Some (EmptyString, rest)
      else
        match cutLine rest with
        | Some (l, r) => Some (String c l, r)
        | None => None
        end
  end.

(** A [bufio.Reader]: the bytes not yet handed out, and how the
    underlying stream ends. *)
Record Reader := mkReader { rd_buf : string; rd_end : readError }.

Definition NewReader (f : Stream) : Reader :=
  mkReader (stream_data f) (stream_end f).

(** [reader.ReadString('\n')]: the bytes up to and including the first
    line feed; when the stream ends before one, the bytes left together
    with the error that ended it. *)
Definition ReadString (reader : Reader) : string * option readError * Reader :=
  match cutLine (rd_buf reader) with
  | Some (l, rest) => (l +:+ nl, None, mkReader rest (rd_end reader))
  | None => (rd_buf reader, Some (rd_end reader), mkReader EmptyString (rd_end reader))
  end.

(** A [bufio.Scanner] splitting with [ScanLines]: [sc_text] is what
    [Text()] returns, [sc_err] what [Err()] returns. *)
Record Scanner := mkScanner {
  sc_buf  : string;
  sc_end  : readError;
  sc_text : string;
  sc_err  : error
}.

Definition NewScanner (f : Stream) : Scanner :=
  mkScanner (stream_data f) (stream_end f) EmptyString None.

(** [bufio.MaxScanTokenSize], the largest buffer the scanner allocates. *)
Definition MaxScanTokenSize : N := 64 * 1024.

Definition ErrTooLong : string := "bufio.Scanner: token too long".

(** [dropCR]: a line loses one trailing carriage return. *)
Fixpoint dropCR (s : string) : string :=
  match s with
  | EmptyString => EmptyString
  | String c EmptyString => if Ascii.eqb c CR then EmptyString else s
  | String c rest => String c (dropCR rest)
  end.

(** [scanner.Scan()].  A token is a line without its terminator; the
    bytes after the last line feed form a last token unless there are
    none.  The line and its line feed must fit the buffer together, and
    an unterminated line must leave room in it, or the scan stops with
    [ErrTooLong].  The loop of [main] does not call [Scan] again once it
    has answered [false]. *)
Definition Scan (sc : Scanner) : bool * Scanner :=
  match cutLine (sc_buf sc) with
  | Some (l, rest) =>
      if (N.of_nat (String.length l) <? MaxScanTokenSize)%N
      then (true, mkScanner rest (sc_end sc) (dropCR l) (sc_err sc))
      else (false, mkScanner (sc_buf sc) (sc_end sc) (sc_text sc) (Some ErrTooLong))
  | None =>
      if (MaxScanTokenSize <=? N.of_nat (String.length (sc_buf sc)))%N
      then (false, mkScanner (sc_buf sc) (sc_end sc) (sc_text sc) (Some ErrTooLong))
      else
        match sc_buf sc with
        | EmptyString =>
            (false, mkScanner EmptyString (sc_end sc) (sc_text sc)
                      match sc_end sc with
                      | io_EOF => sc_err sc
                      | ReadFailure e => Some e
                      end)
        | String _ _ =>
            (true, mkScanner EmptyString (sc_end sc) (dropCR (sc_buf sc)) (sc_err sc))
        end
  end.

(** Both loops of [main] stop because every line handed out shortens
    what is left to read. *)
Lemma cutLine_shorter (s l r : string) :
  cutLine s = Some (l, r) -> String.length r < String.length s.
Proof.
  revert l r. induction s as [|c s IH]; intros l r; simpl; [discriminate|].
  destruct (Ascii.eqb c LF).
  - intros [= <- <-]. lia.
  - destruct (cutLine s) as [[l' r']|]; [|discriminate].
    intros [= <- <-]. specialize (IH _ _ eq_refl). lia.
Qed.

Lemma Scan_shorter (sc sc' : Scanner) :
  Scan sc = (true, sc') -> String.length (sc_buf sc') < String.length (sc_buf sc).
Proof.
  unfold Scan. destruct (cutLine (sc_buf sc)) as [[l r]|] eqn:E.
  - destruct (N.of_nat (String.length l) <? MaxScanTokenSize)%N; [|discriminate].
    intros [= <-]. simpl. eapply cutLine_shorter, E.
  - destruct (MaxScanTokenSize <=? _)%N; [discriminate|].
    destruct (sc_buf sc); [discriminate|]. intros [= <-]. simpl. lia.
Qed.

Lemma ReadString_shorter (reader reader' : Reader) (line : string) :
  ReadString reader = (line, None, reader') ->
  String.length (rd_buf reader') < String.length (rd_buf reader).
Proof.
  unfold ReadString. destruct (cutLine (rd_buf reader)) as [[l r]|] eqn:E; [|discriminate].
  intros [= _ <-]. simpl. eapply cutLine_shorter, E.
Qed.

(** Keep the equation of a call next to its result. *)
Definition inspect {A : Type} (x : A) : {y : A | x = y} := exist _ x eq_refl.

(** [for scanner.Scan() { targets = append(targets, scanner.Text()) }] *)
Equations? scanLoop (scanner : Scanner) (targets : list string) :
    list string * Scanner by wf (String.length (sc_buf scanner)) lt :=
  scanLoop scanner targets with inspect (Scan scanner) := {
    | exist _ (true, scanner') _ :=
        scanLoop scanner' (targets ++ [sc_text scanner']);
    | exist _ (false, scanner') _ := (targets, scanner') }.
Proof. eapply Scan_shorter; eassumption. Qed.

(** The loop over [reader.ReadString('\n')] (lines 211-221): [io.EOF]
    leaves the loop, another error leaves [main]. *)
Equations? stdinLoop (reader : Reader) (targets : list string) :
    Result (list string) by wf (String.length (rd_buf reader)) lt :=
  stdinLoop reader targets with inspect (ReadString reader) := {
    | exist _ (line, Some io_EOF, _) _ := Ok targets;
    | exist _ (line, Some (ReadFailure e), _) _ := Err e;
    | exist _ (line, None, reader') _ :=
        stdinLoop reader' (targets ++ [TrimSpace line]) }.
Proof. eapply ReadString_shorter; eassumption. Qed.

Section Main.

Variable W : World.
Variable argResolver : string.

(** [flag.Usage] as set in [init]. *)
Definition Usage : M unit :=
  Eprint ("[!] Usage: " +:+ os_Args0 W +:+ " [file|target]" +:+ nl);;
  Eprint ("If no arguments are provided, targets will be read from stdin." +:+ nl);;
  Eprint ("Options:" +:+ nl);;
  Eprint (flag_PrintDefaults W).

(** Lines 173-222 of [main]: the targets and the [singleTarget] flag, or
    [None] where [main] returns early.  [args] are the arguments left
    after [flag.Parse()]. *)
Definition collectTargets (args : list string) : M (option (list string * bool)) :=
  match args with
  | firstArg :: _ =>
      if os_Stat W firstArg then
        match os_Open W firstArg with
        | Err e => Eprint ("Error opening file: " +:+ e +:+ nl);; ret None
        | Ok file =>
            let '(targets, scanner) := scanLoop (NewScanner file) [] in
            match sc_err scanner with
            | Some e => Eprint ("Error reading file: " +:+ e +:+ nl);; ret None
            | None => ret (Some (targets, false))
            end
        end
      else ret (Some ([firstArg], true))
  | [] =>
      match os_Stdin_Stat W with
      | Err e => Eprint ("Error stating stdin: " +:+ e +:+ nl);; ret None
      | Ok true => Usage;; ret None
      | Ok false =>
          match stdinLoop (NewReader (os_Stdin W)) [] with
          | Err e => Eprint ("Error reading stdin: " +:+ e +:+ nl);; ret None
          | Ok targets => ret (Some (targets, false))
          end
      end
  end.

Definition main (args : list string) : M unit :=
  input ← collectTargets args;
  match input with
  | None => ret tt
  | Some (targets, singleTarget) =>
      if decide (length targets = 0)
      then Eprint ("[!] Hostinfo: No targets provided" +:+ nl)
      else processTargets W argResolver targets singleTarget
  end.

End Main.

(** ** A sample world

    A handful of host names, both services answering for every address
    unless switched off, and a toy JSON encoder.  It serves to run the
    program on concrete inputs. *)

Module Sample.

(** A decimal field of a dotted quad: one to three digits, at most 255,
    no leading zero. *)
Fixpoint fieldValue (acc : nat) (s : string) : option nat :=
  match s with
  | EmptyString => Some acc
  | String c rest =>
      match Ascii.is_nat c with
      | Some d => fieldValue (10 * acc + d) rest
      | None => None
      end
  end.

Definition isField (s : string) : bool :=
  match s with
  | EmptyString => false
  | String c rest =>
      match fieldValue 0 s with
      | Some v =>
          (v <=? 255)%nat && (String.length s <=? 3)%nat
          && (negb (Ascii.eqb c "0") || (String.length s =? 1)%nat)
      | None => false
      end
  end.

(** Split at the dots. *)
Fixpoint fields (cur : string) (s : string) : list string :=
  match s with
  | EmptyString => [String.rev cur]
  | String c rest =>
      if Ascii.eqb c "." then String.rev cur :: fields EmptyString rest
      else fields (String c cur) rest
  end.

Definition isIPv4 (s : string) : bool :=
  let fs := fields EmptyString s in
  (length fs =? 4)%nat && forallb isField fs.

Definition lookup (hostname : string) : Result (list IPAddr) :=
  if decide (hostname = "dns.google") then
    Ok [mkIPAddr "8.8.8.8" ""; mkIPAddr "8.8.4.4" ""]
  else if decide (hostname = "one.one.one.one") then
    Ok [mkIPAddr "1.1.1.1" ""; mkIPAddr "1.0.0.1" ""]
  else if decide (hostname = "empty.example") then Ok []
  else Err ("lookup " +:+ hostname +:+ ": no such host").

Definition shodanOf (body : string) : ShodanResponse :=
  mkShodan (Some ["host.example"]) (Some [53%Z; 443%Z]) None (Some []) None.

Definition ipinfoOf (body : string) : IPInfoResponse :=
  mkIPInfo "host.example" "Mountain View" "California" "US"
           "37.4056,-122.0775" "AS15169 Google LLC" "94043" "America/Los_Angeles".

(** The quotation mark. *)
Definition q (s : string) : string :=
  String "034" s +:+ String "034" EmptyString.

Definition encode (sep close : string) (c : CombinedResponse) : string :=
  "{" +:+ sep +:+ q "target" +:+ ":" +:+ q (Target c) +:+ "," +:+ sep
  +:+ q "ip" +:+ ":" +:+ q (IP c) +:+ "," +:+ sep
  +:+ q "city" +:+ ":" +:+ q (City (emb_IPInfo c)) +:+ close +:+ "}".

(** [shodanDown t] and [ipinfoDown t] say whether the service fails the
    request that is network call number [t] of the run. *)
Definition world (shodanDown ipinfoDown : nat -> bool)
    (files : list (string * Stream)) (stdin : Result Stream) : World := {|
  net_ParseIP := isIPv4;
  net_LookupIPAddr := fun _ _ hostname => lookup hostname;
  http_Get := fun t url =>
    if String.prefix "https://internetdb" url then
      if shodanDown t then Err "connection refused" else Ok url
    else
      if ipinfoDown t then Err "connection refused" else Ok url;
  json_Decode_Shodan := fun body => Ok (shodanOf body);
  json_Decode_IPInfo := fun body => Ok (ipinfoOf body);
  json_MarshalIndent := fun c => Ok (encode (nl +:+ "  ") nl c);
  json_Marshal := fun c => Ok (encode EmptyString EmptyString c);
  os_Stat := fun name => bool_decide (name ∈ files.*1);
  os_Open := fun name =>
    match list_find (fun f => f.1 = name) files with
    | Some (_, f) => Ok f.2
    | None => Err ("open " +:+ name +:+ ": no such file or directory")
    end;
  os_Stdin_Stat :=
    match stdin with Ok _ => Ok false | Err _ => Ok true end;
  os_Stdin :=
    match stdin with Ok f => f | Err _ => mkStream EmptyString io_EOF end;
  os_Args0 := "./hostinfo";
  flag_PrintDefaults := "  -r string" +:+ nl
|}.

Definition up : nat -> bool := fun _ => false.
Definition down : nat -> bool := fun _ => true.

(** Everything works, nothing on disk, a terminal on standard input. *)
Definition W0 : World := world up up [] (Err "tty").

(** Standard input is a terminal in these worlds; [Wflaky] has the
    geolocation service refuse the first two network calls of the run;
    [Wnoscan] has the scan database down. *)
Definition Wflaky : World := world up (fun t => (t <? 2)%nat) [] (Err "tty").
Definition Wnoscan : World := world down up [] (Err "tty").

(** A file whose only line carries blanks around the address. *)
Definition Wfile : World :=
  world up up [("targets.txt", mkStream (" 8.8.8.8 " +:+ nl) io_EOF)] (Err "tty").

(** Piped input: one terminated line, then an unterminated one. *)
Definition Wpipe : World :=
  world up up [] (Ok (mkStream ("8.8.8.8" +:+ nl +:+ "dns.google") io_EOF)).

(** Piped input without any line feed, as [printf 8.8.8.8] sends it. *)
Definition Wprintf : World :=
  world up up [] (Ok (mkStream "8.8.8.8" io_EOF)).

(** The state after a batch made of the single target 8.8.8.8. *)
Definition s8 : State :=
  snd (processTargets W0 "" ["8.8.8.8"] false initState).

Definition c8 : CombinedResponse :=
  mkCombined "8.8.8.8" "8.8.8.8" (ipinfoOf "") (shodanOf "").

End Sample.

(** ** Vocabulary of the statements *)

(** [s] after the network calls [evs]: only the log grows. *)
Definition logged (evs : list Event) (s : State) : State :=
  mkState (cachedResponses s) (trace s ++ evs) (stdout s) (stderr s).

(** [s] with the cache replaced. *)
Definition cached (c : gmap string CombinedResponse) (s : State) : State :=
  mkState c (trace s) (stdout s) (stderr s).

(** How many times [url] was requested in a log. *)
Definition gets (url : string) (tr : list Event) : nat :=
  count_occ Event_eq_dec tr (EvGet url).

(** The name lookups of a log. *)
Definition lookups (tr : list Event) : list string :=
  omap (fun e => match e with EvLookup h => Some h | EvGet _ => None end) tr.

(** The line [processTargets] writes for a target that failed. *)
Definition errorLine (target e : string) : string :=
  "Error processing target " +:+ target +:+ ": " +:+ e +:+ nl.

(** The encoders never fail: encoding/json only rejects values (channels,
    functions, cycles, non-finite floats) that a [CombinedResponse] of
    strings, integers and slices of them cannot hold. *)
Definition MarshalTotal (W : World) : Prop :=
  forall c, (exists j, json_MarshalIndent W c = Ok j)
         /\ (exists j, json_Marshal W c = Ok j).

(** The text of the object written for [c]: indented for a single
    target, compact otherwise. *)
Definition rendered (W : World) (singleTarget : bool) (c : CombinedResponse) : string :=
  match (if singleTarget then json_MarshalIndent W c else json_Marshal W c) with
  | Ok j => j
  | Err _ => EmptyString
  end.

(** What [processTarget] returned for each target of a run, in order. *)
Fixpoint outcomes (W : World) (argResolver : string) (singleTarget : bool)
    (targets : list string) (s : State) : list (CombinedResponse * error) :=
  match targets with
  | [] => []
  | target :: rest =>
      fst (processTarget W argResolver target s)
      :: outcomes W argResolver singleTarget rest
           (snd (processOne W argResolver singleTarget target s))
  end.

(** The records of the targets that were processed without error. *)
Definition successes (rs : list (CombinedResponse * error)) : list CombinedResponse :=
  omap (fun r => match snd r with None => Some (fst r) | Some _ => None end) rs.

(** The bytes of a file or stream holding the given lines, each closed
    by a line feed. *)
Definition unlines (lines : list string) : string :=
  foldr (fun l acc => l +:+ nl +:+ acc) EmptyString lines.

(** A line the scanner can hold: no line feed inside, and shorter than
    the largest buffer. *)
Definition scannable (l : string) : Prop :=
  cutLine l = None /\ (N.of_nat (String.length l) < MaxScanTokenSize)%N.

(** Every cache entry sits under the address it records. *)
Definition cacheKeyed (m : gmap string CombinedResponse) : Prop :=
  forall ip c, m !! ip = Some c -> IP c = ip.

(** [s] with the two streams replaced: the part of the state that
    [processTarget] neither reads nor writes. *)
Definition withStreams (out err : list string) (s : State) : State :=
  mkState (cachedResponses s) (trace s) out err.

(** The error lines of the targets of a run that failed, in order, from
    the targets and what [processTarget] returned for each. *)
Definition failureLines (targets : list string)
    (rs : list (CombinedResponse * error)) : list string :=
  omap (fun p => match snd (snd p) with
                 | Some e => Some (errorLine (fst p) e)
                 | None => None
                 end)
       (zip targets rs).

(** The line [processTargets] writes for a record that cannot be encoded. *)
Definition marshalLine (target e : string) : string :=
  "Error marshalling data for target " +:+ target +:+ ": " +:+ e +:+ nl.

(** ** More sample worlds *)

Module MoreSamples.

Import Sample.

(** [W] with an indenting encoder that always fails. *)
Definition noIndent (W : World) : World := {|
  net_ParseIP := net_ParseIP W;
  net_LookupIPAddr := net_LookupIPAddr W;
  http_Get := http_Get W;
  json_Decode_Shodan := json_Decode_Shodan W;
  json_Decode_IPInfo := json_Decode_IPInfo W;
  json_MarshalIndent := fun _ => Err "json: error calling MarshalJSON";
  json_Marshal := json_Marshal W;
  os_Stat := os_Stat W;
  os_Open := os_Open W;
  os_Stdin_Stat := os_Stdin_Stat W;
  os_Stdin := os_Stdin W;
  os_Args0 := os_Args0 W;
  flag_PrintDefaults := flag_PrintDefaults W
|}.

Definition Wnoindent : World := noIndent W0.

(** The byte [c], [n] times. *)
Fixpoint replicateByte (n : nat) (c : ascii) : string :=
  match n with
  | O => EmptyString
  | S n => String c (replicateByte n c)
  end.

(** A line of exactly 65536 letters. *)
Definition longLine : string := replicateByte (N.to_nat MaxScanTokenSize) "a".

(** Files: three lines with blanks, an empty line and no last line feed;
    two lines with Windows line ends; a good line before one too long;
    a disk that fails after the first line. *)
Definition Wfiles : World :=
  world up up
    [("plain.txt", mkStream (unlines [" 8.8.8.8 "; ""] +:+ "dns.google") io_EOF);
     ("dos.txt",
      mkStream (unlines (map (fun l => l +:+ String CR EmptyString)
                             ["8.8.8.8"; "dns.google"])) io_EOF);
     ("long.txt", mkStream (unlines ["8.8.8.8"] +:+ longLine +:+ EmptyString) io_EOF);
     ("bad.txt", mkStream ("8.8.8.8" +:+ nl +:+ "dns.goo")
                          (ReadFailure "read bad.txt: input/output error"))]
    (Err "tty").

(** The same two lines with Windows line ends and with plain line
    feeds, and a line that itself ends in a carriage return written
    both ways. *)
Definition Wdosunix : World :=
  world up up
    [("dos.txt",
      mkStream (unlines (map (fun l => l +:+ String CR EmptyString)
                             ["8.8.8.8"; "dns.google"])) io_EOF);
     ("unix.txt", mkStream (unlines ["8.8.8.8"; "dns.google"]) io_EOF);
     ("cr-dos.txt",
      mkStream (unlines (map (fun l => l +:+ String CR EmptyString)
                             ["a" +:+ String CR EmptyString])) io_EOF);
     ("cr-unix.txt", mkStream (unlines ["a" +:+ String CR EmptyString]) io_EOF)]
    (Err "tty").

(** Piped input with Windows line ends, and piped input that fails
    after the first line. *)
Definition Wpipedos : World :=
  world up up []
    (Ok (mkStream (unlines (map (fun l => if true then l +:+ String CR EmptyString else l)
                                [" 8.8.8.8"; "dns.google "]) +:+ "1.1.1.1") io_EOF)).

Definition Wbadpipe : World :=
  world up up []
    (Ok (mkStream ("8.8.8.8" +:+ nl +:+ "dns.goo")
                  (ReadFailure "read /dev/stdin: input/output error"))).

End MoreSamples.

(** ** Facts about the pipeline *)

Ltac run :=
  unfold mbind, M_bind, bind, ret, get_cache, set_cache, emit, Println, Eprint in *;
  simpl in *.

Lemma shodanURL_inj (a b : string) : shodanURL a = shodanURL b -> a = b.
Proof. unfold shodanURL. apply String.app_inj. Qed.

Lemma append_cons (c : ascii) (a b : string) :
  String c a +:+ b = String c (a +:+ b).
Proof. reflexivity. Qed.

Lemma append_nil (b : string) : EmptyString +:+ b = b.
Proof. reflexivity. Qed.

Lemma length_append (a b : string) :
  String.length (a +:+ b) = String.length a + String.length b.
Proof.
  induction a as [|c a IH]; [reflexivity|].
  rewrite append_cons. simpl. rewrite IH. reflexivity.
Qed.

Lemma app_inv_tail_string (a b t : string) :
  a +:+ t = b +:+ t -> a = b.
Proof.
  intros H.
  assert (L : String.length a = String.length b).
  { apply (f_equal String.length) in H.
    rewrite !length_append in H. lia. }
  revert b H L. induction a as [|c a IH]; intros [|d b] H L; simpl in L; try lia.
  - reflexivity.
  - rewrite !append_cons in H. injection H as -> H. f_equal. apply IH; [exact H | lia].
Qed.

Lemma ipinfoURL_inj (a b : string) : ipinfoURL a = ipinfoURL b -> a = b.
Proof.
  unfold ipinfoURL. intros H. apply String.app_inj in H.
  eapply app_inv_tail_string, H.
Qed.

Lemma shodanURL_ne_ipinfoURL (a b : string) : shodanURL a <> ipinfoURL b.
Proof. unfold shodanURL, ipinfoURL. cbn. discriminate. Qed.

Lemma gets_app (url : string) (tr evs : list Event) :
  gets url (tr ++ evs) = gets url tr + gets url evs.
Proof. unfold gets. apply count_occ_app. Qed.

Lemma gets_other (url u : string) : u <> url -> gets url [EvGet u] = 0.
Proof.
  intros Hne. unfold gets. apply count_occ_not_In.
  intros [H|[]]. congruence.
Qed.

Lemma gets_lookup (url h : string) : gets url [EvLookup h] = 0.
Proof.
  unfold gets. apply count_occ_not_In. intros [H|[]]. discriminate.
Qed.

Lemma gets_same (url : string) : gets url [EvGet url] = 1.
Proof.
  unfold gets. rewrite count_occ_cons_eq by reflexivity. reflexivity.
Qed.

Lemma lookups_app (tr evs : list Event) :
  lookups (tr ++ evs) = lookups tr ++ lookups evs.
Proof. unfold lookups. apply omap_app. Qed.

Section PipelineFacts.

Variable W : World.
Variable argResolver : string.

Lemma fetchShodanData_state (ip : string) (s : State) :
  snd (fetchShodanData W ip s) = logged [EvGet (shodanURL ip)] s.
Proof.
  unfold fetchShodanData. run.
  destruct (http_Get W (now s) (shodanURL ip)) as [body|e]; [|reflexivity].
  destruct (json_Decode_Shodan W body); reflexivity.
Qed.

Lemma fetchIPInfoData_state (ip : string) (s : State) :
  snd (fetchIPInfoData W ip s) = logged [EvGet (ipinfoURL ip)] s.
Proof.
  unfold fetchIPInfoData. run.
  destruct (http_Get W (now s) (ipinfoURL ip)) as [body|e]; [|reflexivity].
  destruct (json_Decode_IPInfo W body); reflexivity.
Qed.

(** A failed fetch hands back the zero record. *)
Lemma fetchShodanData_failed (ip : string) (s : State) (e : string) :
  snd (fst (fetchShodanData W ip s)) = Some e ->
  fst (fst (fetchShodanData W ip s)) = zeroShodan.
Proof.
  unfold fetchShodanData. run.
  destruct (http_Get W (now s) (shodanURL ip)) as [body|e']; [|reflexivity].
  destruct (json_Decode_Shodan W body); [discriminate|reflexivity].
Qed.

Lemma resolveHostname_state (hostname : string) (s : State) :
  snd (resolveHostname W argResolver hostname s) = logged [EvLookup hostname] s.
Proof.
  unfold resolveHostname. run.
  destruct (net_LookupIPAddr W argResolver (now s) hostname) as [[|a l]|e]; reflexivity.
Qed.

Lemma resolveTarget_state (target : string) (s : State) :
  snd (resolveTarget W argResolver target s) =
  if net_ParseIP W target then s else logged [EvLookup target] s.
Proof.
  unfold resolveTarget. destruct (net_ParseIP W target); [reflexivity|].
  apply resolveHostname_state.
Qed.

(** [processTarget], one stage after the other. *)
Lemma processTarget_unfold (target : string) (s : State) :
  processTarget W argResolver target s =
  let '((ip, err), s1) := resolveTarget W argResolver target s in
  match err with
  | Some e => ((zeroCombined, Some e), s1)
  | None =>
      match cachedResponses s1 !! ip with
      | Some c => ((set_Target target c, None), s1)
      | None =>
          let '((shodanData, _), s2) := fetchShodanData W ip s1 in
          let '((ipInfoData, err), s3) := fetchIPInfoData W ip s2 in
          match err with
          | Some e => ((zeroCombined, Some e), s3)
          | None =>
              let combined := mkCombined target ip ipInfoData shodanData in
              ((combined, None), cached (<[ip := combined]> (cachedResponses s1)) s3)
          end
      end
  end.
Proof.
  unfold processTarget. run.
  destruct (resolveTarget W argResolver target s) as [[ip [e|]] s1]; [reflexivity|].
  destruct (cachedResponses s1 !! ip) as [c|]; [reflexivity|].
  destruct (fetchShodanData W ip s1) as [[sd e1] s2].
  destruct (fetchIPInfoData W ip s2) as [[gd [e|]] s3]; reflexivity.
Qed.

(** The three ways through [processTarget]. *)
Lemma processTarget_unresolved (target ip e : string) (s s1 : State) :
  resolveTarget W argResolver target s = ((ip, Some e), s1) ->
  processTarget W argResolver target s = ((zeroCombined, Some e), s1).
Proof. intros H. rewrite processTarget_unfold, H. reflexivity. Qed.

Lemma processTarget_hit (target ip : string) (c : CombinedResponse) (s s1 : State) :
  resolveTarget W argResolver target s = ((ip, None), s1) ->
  cachedResponses s1 !! ip = Some c ->
  processTarget W argResolver target s = ((set_Target target c, None), s1).
Proof. intros H Hc. rewrite processTarget_unfold, H, Hc. reflexivity. Qed.

Lemma processTarget_miss (target ip : string) (s s1 : State) :
  resolveTarget W argResolver target s = ((ip, None), s1) ->
  cachedResponses s1 !! ip = None ->
  processTarget W argResolver target s =
  let s2 := logged [EvGet (shodanURL ip)] s1 in
  let s3 := logged [EvGet (ipinfoURL ip)] s2 in
  match snd (fst (fetchIPInfoData W ip s2)) with
  | Some e => ((zeroCombined, Some e), s3)
  | None =>
      let combined :=
        mkCombined target ip (fst (fst (fetchIPInfoData W ip s2)))
                   (fst (fst (fetchShodanData W ip s1))) in
      ((combined, None), cached (<[ip := combined]> (cachedResponses s1)) s3)
  end.
Proof.
  intros H Hc. rewrite processTarget_unfold, H, Hc. cbv zeta.
  pose proof (fetchShodanData_state ip s1) as S2.
  destruct (fetchShodanData W ip s1) as [[sd e1] s2] eqn:E2.
  simpl in S2. subst s2.
  pose proof (fetchIPInfoData_state ip (logged [EvGet (shodanURL ip)] s1)) as S3.
  destruct (fetchIPInfoData W ip (logged [EvGet (shodanURL ip)] s1))
    as [[gd [e|]] s3] eqn:E3; simpl in S3; subst s3; reflexivity.
Qed.

Lemma resolveTarget_cache (target : string) (s : State) :
  cachedResponses (snd (resolveTarget W argResolver target s)) = cachedResponses s.
Proof. rewrite resolveTarget_state. destruct (net_ParseIP W target); reflexivity. Qed.

(** [processTarget] writes to neither stream. *)
Lemma processTarget_streams (target : string) (s : State) :
  stdout (snd (processTarget W argResolver target s)) = stdout s
  /\ stderr (snd (processTarget W argResolver target s)) = stderr s.
Proof.
  pose proof (resolveTarget_state target s) as R.
  destruct (resolveTarget W argResolver target s) as [[ip [e|]] s1] eqn:E; simpl in R.
  - rewrite (processTarget_unresolved _ _ _ _ _ E). simpl. subst s1.
    destruct (net_ParseIP W target); auto.
  - assert (stdout s1 = stdout s /\ stderr s1 = stderr s) as [E1 E2]
      by (subst s1; destruct (net_ParseIP W target); auto).
    destruct (cachedResponses s1 !! ip) as [c|] eqn:Hc.
    + rewrite (processTarget_hit _ _ _ _ _ E Hc). auto.
    + rewrite (processTarget_miss _ _ _ _ E Hc). cbv zeta.
      destruct (snd (fst (fetchIPInfoData W ip _))); simpl; auto.
Qed.

(** Once an address is cached, [processTarget] neither touches its
    entry nor requests its URLs again. *)
Lemma processTarget_settled (target ip : string) (c : CombinedResponse) (s : State) :
  cachedResponses s !! ip = Some c ->
  let s' := snd (processTarget W argResolver target s) in
  cachedResponses s' !! ip = Some c
  /\ gets (shodanURL ip) (trace s') = gets (shodanURL ip) (trace s)
  /\ gets (ipinfoURL ip) (trace s') = gets (ipinfoURL ip) (trace s).
Proof.
  intros Hc.
  pose proof (resolveTarget_state target s) as R.
  destruct (resolveTarget W argResolver target s) as [[ip' err] s1] eqn:E; simpl in R.
  assert (H1 : cachedResponses s1 !! ip = Some c
               /\ gets (shodanURL ip) (trace s1) = gets (shodanURL ip) (trace s)
               /\ gets (ipinfoURL ip) (trace s1) = gets (ipinfoURL ip) (trace s)).
  { subst s1. destruct (net_ParseIP W target); [auto|]. simpl.
    rewrite !gets_app, !gets_lookup. auto with lia. }
  destruct H1 as (Hc1 & G1 & G2).
  destruct err as [e|].
  - rewrite (processTarget_unresolved _ _ _ _ _ E). simpl. auto.
  - destruct (cachedResponses s1 !! ip') as [c'|] eqn:Hc'.
    + rewrite (processTarget_hit _ _ _ _ _ E Hc'). simpl. auto.
    + assert (Hne : ip' <> ip) by congruence.
      assert (N1 : gets (shodanURL ip) [EvGet (shodanURL ip')] = 0).
      { apply gets_other. intros Q. apply shodanURL_inj in Q. contradiction. }
      assert (N2 : gets (shodanURL ip) [EvGet (ipinfoURL ip')] = 0).
      { apply gets_other. intros Q. symmetry in Q.
        exact (shodanURL_ne_ipinfoURL _ _ Q). }
      assert (N3 : gets (ipinfoURL ip) [EvGet (shodanURL ip')] = 0).
      { apply gets_other. exact (shodanURL_ne_ipinfoURL _ _). }
      assert (N4 : gets (ipinfoURL ip) [EvGet (ipinfoURL ip')] = 0).
      { apply gets_other. intros Q. apply ipinfoURL_inj in Q. contradiction. }
      rewrite (processTarget_miss _ _ _ _ E Hc'). cbv zeta.
      destruct (snd (fst (fetchIPInfoData W ip' _))); simpl;
        rewrite ?lookup_insert_ne by exact Hne;
        rewrite !gets_app, N1, N2, N3, N4; auto with lia.
Qed.

End PipelineFacts.

Section DriverFacts.

Variable W : World.
Variable argResolver : string.

(** A target that failed: its error line, and nothing else. *)
Lemma processOne_failed (singleTarget : bool) (target e : string)
    (c : CombinedResponse) (s s1 : State) :
  processTarget W argResolver target s = ((c, Some e), s1) ->
  processOne W argResolver singleTarget target s = Eprint (errorLine target e) s1.
Proof. intros H. unfold processOne. run. rewrite H. reflexivity. Qed.

(** The output stage leaves cache and log as [processTarget] left them. *)
Lemma processOne_core (singleTarget : bool) (target : string) (s : State) :
  cachedResponses (snd (processOne W argResolver singleTarget target s))
  = cachedResponses (snd (processTarget W argResolver target s))
  /\ trace (snd (processOne W argResolver singleTarget target s))
     = trace (snd (processTarget W argResolver target s)).
Proof.
  unfold processOne. run.
  destruct (processTarget W argResolver target s) as [[c [e|]] s1]; [auto|].
  destruct (json_MarshalIndent W c); [|auto].
  destruct singleTarget; [auto|].
  destruct (json_Marshal W c); auto.
Qed.

(** With encoders that cannot fail, a target writes its object when it
    was processed without error, and nothing otherwise. *)
Lemma processOne_stdout (singleTarget : bool) (target : string) (s : State) :
  MarshalTotal W ->
  stdout (snd (processOne W argResolver singleTarget target s))
  = stdout s ++
    match snd (fst (processTarget W argResolver target s)) with
    | None =>
        [rendered W singleTarget (fst (fst (processTarget W argResolver target s))) +:+ nl]
    | Some _ => []
    end.
Proof.
  intros HM. destruct (processTarget_streams W argResolver target s) as [Ho _].
  unfold processOne, rendered. run.
  destruct (processTarget W argResolver target s) as [[c [e|]] s1]; simpl in *.
  - rewrite Ho, app_nil_r. reflexivity.
  - destruct (HM c) as [[j1 E1] [j2 E2]]. rewrite E1.
    destruct singleTarget; simpl.
    + rewrite ?E1, Ho. reflexivity.
    + rewrite E2, Ho. reflexivity.
Qed.

Lemma forTargets_cons (singleTarget : bool) (target : string)
    (rest : list string) (s : State) :
  forTargets W argResolver singleTarget (target :: rest) s
  = forTargets W argResolver singleTarget rest
      (snd (processOne W argResolver singleTarget target s)).
Proof.
  simpl. run.
  destruct (processOne W argResolver singleTarget target s) as [[] s1]. reflexivity.
Qed.

(** Running a list of targets is running its front, then its back. *)
Lemma forTargets_app (singleTarget : bool) (ts1 ts2 : list string) (s : State) :
  forTargets W argResolver singleTarget (ts1 ++ ts2) s
  = forTargets W argResolver singleTarget ts2
      (snd (forTargets W argResolver singleTarget ts1 s)).
Proof.
  revert s. induction ts1 as [|t ts1 IH]; intros s; [reflexivity|].
  rewrite <- app_comm_cons, !forTargets_cons. apply IH.
Qed.

(** A cached address stays settled for the rest of the run. *)
Lemma forTargets_settled (singleTarget : bool) (targets : list string)
    (ip : string) (c : CombinedResponse) (s : State) :
  cachedResponses s !! ip = Some c ->
  let s' := snd (forTargets W argResolver singleTarget targets s) in
  cachedResponses s' !! ip = Some c
  /\ gets (shodanURL ip) (trace s') = gets (shodanURL ip) (trace s)
  /\ gets (ipinfoURL ip) (trace s') = gets (ipinfoURL ip) (trace s).
Proof.
  revert s. induction targets as [|t ts IH]; intros s Hc; [simpl; auto|].
  cbv zeta. rewrite forTargets_cons.
  destruct (processTarget_settled W argResolver t ip c s Hc) as (C1 & G1 & G2).
  destruct (processOne_core singleTarget t s) as [Ec Et].
  rewrite <- Ec in C1. rewrite <- Et in G1, G2.
  destruct (IH _ C1) as (C2 & G3 & G4).
  rewrite G3, G4. auto.
Qed.

(** The output of a run: the objects of the targets that succeeded, in
    the order of the targets. *)
Lemma forTargets_stdout (singleTarget : bool) (targets : list string) (s : State) :
  MarshalTotal W ->
  stdout (snd (forTargets W argResolver singleTarget targets s))
  = stdout s ++
    map (fun c => rendered W singleTarget c +:+ nl)
        (successes (outcomes W argResolver singleTarget targets s)).
Proof.
  intros HM. revert s. induction targets as [|t ts IH]; intros s.
  - simpl. rewrite app_nil_r. reflexivity.
  - rewrite forTargets_cons, IH, (processOne_stdout _ _ _ HM), <- app_assoc.
    f_equal. unfold successes. simpl outcomes.
    destruct (processTarget W argResolver t s) as [[c [e|]] s1]; reflexivity.
Qed.

Lemma processTargets_unfold (targets : list string) (singleTarget : bool) (s : State) :
  processTargets W argResolver targets singleTarget s
  = forTargets W argResolver singleTarget targets (cached ∅ s).
Proof. reflexivity. Qed.

End DriverFacts.

(** ** The cache (claims C1, C2, C10) *)

Section CacheClaims.

Variable W : World.
Variable argResolver : string.

(** Whatever way a target succeeds, its address is cached afterwards
    and the record returned is the cached one under the target's name. *)
Lemma processTarget_ok_cached (target ip : string) (c : CombinedResponse) (s : State) :
  fst (resolveTarget W argResolver target s) = (ip, None) ->
  fst (processTarget W argResolver target s) = (c, None) ->
  exists c0,
    cachedResponses (snd (processTarget W argResolver target s)) !! ip = Some c0
    /\ c = set_Target target c0.
Proof.
  intros R P.
  destruct (resolveTarget W argResolver target s) as [[ip' err] s1] eqn:E.
  simpl in R. injection R as -> ->.
  destruct (cachedResponses s1 !! ip) as [c0|] eqn:Hc.
  - rewrite (processTarget_hit _ _ _ _ _ _ _ E Hc) in *. simpl in *.
    injection P as <-. eauto.
  - rewrite (processTarget_miss _ _ _ _ _ _ E Hc) in *. cbv zeta in *.
    destruct (snd (fst (fetchIPInfoData W ip _))); simpl in *; [discriminate|].
    injection P as <-. eexists. split; [apply lookup_insert_eq | reflexivity].
Qed.

(** C1. When the address a target resolves to already has a cache
    entry, [processTarget] returns that entry with only [Target] set to
    the current target: [IP] and the geolocation and security fields are
    those of the cached record, and the cache itself is left as it was. *)
Theorem C1_cache_hit_returns_cached_record
    (target ip : string) (c : CombinedResponse) (s s1 : State) :
  resolveTarget W argResolver target s = ((ip, None), s1) ->
  cachedResponses s !! ip = Some c ->
  exists c',
    processTarget W argResolver target s = ((c', None), s1)
    /\ Target c' = target
    /\ IP c' = IP c
    /\ emb_IPInfo c' = emb_IPInfo c
    /\ emb_Shodan c' = emb_Shodan c
    /\ cachedResponses s1 = cachedResponses s.
Proof.
  intros R Hc.
  pose proof (resolveTarget_cache W argResolver target s) as Ec.
  rewrite R in Ec. simpl in Ec.
  exists (set_Target target c). split.
  - apply (processTarget_hit _ _ _ ip); [exact R | rewrite Ec; exact Hc].
  - simpl. auto.
Qed.

(** C2, as the code has it.  On a cache hit the target costs no fetch at
    all.  On a miss exactly one security fetch and one geolocation fetch
    are issued for the address.  When the target succeeds its record is
    in the cache under the resolved address (stored there on a miss) and
    neither URL of the address is requested again in the rest of the
    run.  When the geolocation fetch fails nothing is stored, so the
    pair is repeated for the next target with that address. *)
Theorem C2_one_successful_fetch_pair_per_address
    (singleTarget : bool) (target ip : string) (rest : list string) (s : State) :
  fst (resolveTarget W argResolver target s) = (ip, None) ->
  let s0 := snd (resolveTarget W argResolver target s) in
  let s1 := snd (processOne W argResolver singleTarget target s) in
  let s2 := snd (forTargets W argResolver singleTarget rest s1) in
  (is_Some (cachedResponses s !! ip) -> trace s1 = trace s0)
  /\ (cachedResponses s !! ip = None ->
      trace s1 = trace s0 ++ [EvGet (shodanURL ip); EvGet (ipinfoURL ip)])
  /\ (forall c, fst (processTarget W argResolver target s) = (c, None) ->
      (exists c0, cachedResponses s1 !! ip = Some c0 /\ c = set_Target target c0)
      /\ (cachedResponses s !! ip = None ->
          cachedResponses s1 = <[ip := c]> (cachedResponses s))
      /\ gets (shodanURL ip) (trace s2) = gets (shodanURL ip) (trace s1)
      /\ gets (ipinfoURL ip) (trace s2) = gets (ipinfoURL ip) (trace s1))
  /\ (forall c e, fst (processTarget W argResolver target s) = (c, Some e) ->
      cachedResponses s1 = cachedResponses s).
Proof.
  intros R s0 s1 s2.
  destruct (processOne_core W argResolver singleTarget target s) as [Ec Et].
  fold s1 in Ec, Et.
  pose proof (resolveTarget_cache W argResolver target s) as Ecache. fold s0 in Ecache.
  destruct (resolveTarget W argResolver target s) as [[ip' err] s0'] eqn:E.
  simpl in R. injection R as -> ->. simpl in s0. subst s0.
  split; [|split; [|split]].
  - intros [c0 Hc]. rewrite <- Ecache in Hc.
    rewrite Et, (processTarget_hit _ _ _ _ _ _ _ E Hc). reflexivity.
  - intros Hc. rewrite <- Ecache in Hc.
    rewrite Et, (processTarget_miss _ _ _ _ _ _ E Hc). cbv zeta.
    destruct (snd (fst (fetchIPInfoData W ip _))); simpl;
      rewrite <- app_assoc; reflexivity.
  - intros c P.
    destruct (processTarget_ok_cached target ip c s) as (c0 & Hc0 & Eq);
      [rewrite E; reflexivity | exact P |].
    rewrite <- Ec in Hc0.
    split; [eauto|]. split.
    + intros Hc. rewrite <- Ecache in Hc. rewrite Ec.
      rewrite (processTarget_miss _ _ _ _ _ _ E Hc) in *. cbv zeta in *.
      destruct (snd (fst (fetchIPInfoData W ip _))); simpl in *; [discriminate|].
      injection P as <-. rewrite Ecache. reflexivity.
    + destruct (forTargets_settled W argResolver singleTarget rest ip c0 s1 Hc0)
        as (_ & G1 & G2). auto.
  - intros c e P. rewrite Ec.
    destruct (cachedResponses s0' !! ip) as [c0|] eqn:Hc.
    + rewrite (processTarget_hit _ _ _ _ _ _ _ E Hc) in *. discriminate.
    + rewrite (processTarget_miss _ _ _ _ _ _ E Hc) in *. cbv zeta in *.
      destruct (snd (fst (fetchIPInfoData W ip _))); simpl in *; [|discriminate].
      exact Ecache.
Qed.

(** C10. A target whose security fetch failed and whose geolocation
    fetch succeeded is cached with the zero security record.  From then
    on the entry stays, the security URL of the address is never
    requested again, and every later target resolving to the address
    gets the cached record, empty security fields included. *)
Theorem C10_failed_security_fetch_is_cached
    (singleTarget : bool) (target ip e : string) (gd : IPInfoResponse)
    (sd : ShodanResponse) (s s1 s2 s3 : State) :
  resolveTarget W argResolver target s = ((ip, None), s1) ->
  cachedResponses s1 !! ip = None ->
  fetchShodanData W ip s1 = ((sd, Some e), s2) ->
  fetchIPInfoData W ip s2 = ((gd, None), s3) ->
  let c0 := mkCombined target ip gd zeroShodan in
  let s' := snd (processOne W argResolver singleTarget target s) in
  fst (processTarget W argResolver target s) = (c0, None)
  /\ cachedResponses s' !! ip = Some c0
  /\ forall (later : list string) (target' : string),
       let s'' := snd (forTargets W argResolver singleTarget later s') in
       cachedResponses s'' !! ip = Some c0
       /\ gets (shodanURL ip) (trace s'') = gets (shodanURL ip) (trace s')
       /\ (fst (resolveTarget W argResolver target' s'') = (ip, None) ->
           fst (processTarget W argResolver target' s'') = (set_Target target' c0, None)
           /\ emb_Shodan (set_Target target' c0) = zeroShodan
           /\ trace (snd (processTarget W argResolver target' s''))
              = trace (snd (resolveTarget W argResolver target' s''))).
Proof.
  intros R Hc F1 F2 c0 s'.
  destruct (processOne_core W argResolver singleTarget target s) as [Ec Et].
  fold s' in Ec, Et.
  assert (Hsd : sd = zeroShodan).
  { pose proof (fetchShodanData_failed W ip s1 e) as Z.
    rewrite F1 in Z. simpl in Z. auto. }
  subst sd.
  assert (P : processTarget W argResolver target s
              = ((c0, None), cached (<[ip := c0]> (cachedResponses s1)) s3)).
  { rewrite processTarget_unfold, R, Hc, F1, F2. reflexivity. }
  assert (C0 : cachedResponses s' !! ip = Some c0).
  { rewrite Ec, P. simpl. apply lookup_insert_eq. }
  split; [rewrite P; reflexivity|]. split; [exact C0|].
  intros later target' s''.
  destruct (forTargets_settled W argResolver singleTarget later ip c0 s' C0)
    as (C1 & G1 & _). fold s'' in C1, G1.
  split; [exact C1|]. split; [exact G1|].
  intros R'.
  destruct (resolveTarget W argResolver target' s'') as [[ip' err] s1'] eqn:E'.
  simpl in R'. injection R' as -> ->.
  pose proof (resolveTarget_cache W argResolver target' s'') as Ecache.
  rewrite E' in Ecache. simpl in Ecache.
  rewrite (processTarget_hit _ _ _ ip c0 _ _ E') by (rewrite Ecache; exact C1).
  simpl. auto.
Qed.

End CacheClaims.

(** ** Resolution and enrichment errors (claims C3, C6, C7) *)

Section ErrorClaims.

Variable W : World.
Variable argResolver : string.


(** X20. A target fails in exactly two ways: its name does not resolve,
    or its address is not cached and the geolocation fetch fails.  A
    target whose address is cached cannot fail once it is resolved. *)
Lemma processTarget_failure_kinds (target e : string) (s : State) :
  snd (fst (processTarget W argResolver target s)) = Some e <->
  snd (fst (resolveTarget W argResolver target s)) = Some e
  \/ (exists ip,
        fst (resolveTarget W argResolver target s) = (ip, None)
        /\ cachedResponses s !! ip = None
        /\ snd (fst (fetchIPInfoData W ip
                       (logged [EvGet (shodanURL ip)]
                          (snd (resolveTarget W argResolver target s))))) = Some e).
Proof.
  pose proof (resolveTarget_cache W argResolver target s) as Ec.
  destruct (resolveTarget W argResolver target s) as [[ip [e0|]] s1] eqn:E;
    simpl in Ec.
  - rewrite (processTarget_unresolved _ _ _ _ _ _ _ E). simpl. split; [auto|].
    intros [H|(ip' & H & _)]; [exact H | discriminate].
  - rewrite <- Ec. destruct (cachedResponses s1 !! ip) as [c|] eqn:Hc.
    + rewrite (processTarget_hit _ _ _ _ _ _ _ E Hc). simpl. split; [discriminate|].
      intros [H|(ip' & [= <-] & H & _)]; [discriminate | congruence].
    + rewrite (processTarget_miss _ _ _ _ _ _ E Hc). cbv zeta. simpl.
      destruct (snd (fst (fetchIPInfoData W ip _))) as [e1|] eqn:G; simpl.
      * split.
        -- intros [= ->]. right. exists ip. rewrite G. auto.
        -- intros [H|(ip' & [= <-] & _ & H)]; [discriminate|].
           rewrite G in H. exact H.
      * split; [discriminate|].
        intros [H|(ip' & [= <-] & _ & H)]; [discriminate|].
        rewrite G in H. discriminate.
Qed.

(** C6. A target that parses as an IP literal is its own resolved
    address: the state, and with it the log of network calls, is left
    untouched, and [processTarget] as a whole looks up no name. *)
Theorem C6_ip_literal_resolves_to_itself (target : string) (s : State) :
  net_ParseIP W target = true ->
  resolveTarget W argResolver target s = ((target, None), s)
  /\ lookups (trace (snd (processTarget W argResolver target s))) = lookups (trace s).
Proof.
  intros HP.
  assert (R : resolveTarget W argResolver target s = ((target, None), s)).
  { unfold resolveTarget. rewrite HP. reflexivity. }
  split; [exact R|].
  destruct (cachedResponses s !! target) as [c|] eqn:Hc.
  - rewrite (processTarget_hit _ _ _ _ _ _ _ R Hc). reflexivity.
  - rewrite (processTarget_miss _ _ _ _ _ _ R Hc). cbv zeta.
    destruct (snd (fst (fetchIPInfoData W target _))); simpl;
      rewrite !lookups_app; simpl; rewrite !app_nil_r; reflexivity.
Qed.

(** C7. For a target that is not an IP literal the resolver asks for
    the name once; it returns the first address of a non-empty answer,
    and fails exactly when the lookup fails or answers with no address. *)
Theorem C7_resolver_first_address_or_error (target : string) (s : State) :
  net_ParseIP W target = false ->
  let answer := net_LookupIPAddr W argResolver (now s) target in
  let out := fst (resolveTarget W argResolver target s) in
  (forall a rest, answer = Ok (a :: rest) -> out = (IPAddr_String a, None))
  /\ ((exists e, snd out = Some e) <-> ((exists e, answer = Err e) \/ answer = Ok []))
  /\ (forall e, answer = Err e -> snd out = Some e)
  /\ trace (snd (resolveTarget W argResolver target s)) = trace s ++ [EvLookup target].
Proof.
  intros HP answer out.
  assert (R : resolveTarget W argResolver target s = resolveHostname W argResolver target s).
  { unfold resolveTarget. rewrite HP. reflexivity. }
  subst out. rewrite R, resolveHostname_state.
  unfold resolveHostname. run. fold answer.
  destruct answer as [[|a l]|e]; simpl.
  - split; [intros ? ? [=]|]. split; [|split; [intros ? [=] | reflexivity]].
    split; [intros _; right; reflexivity | intros _; eexists; reflexivity].
  - split; [intros ? ? [= -> ->]; reflexivity|].
    split; [|split; [intros ? [=] | reflexivity]].
    split; [intros [? [=]] | intros [[? [=]] | [=]]].
  - split; [intros ? ? [=]|].
    split; [|split; [intros ? [= ->]; reflexivity | reflexivity]].
    split; [intros _; left; eexists; reflexivity | intros _; eexists; reflexivity].
Qed.

End ErrorClaims.

(** ** The driver (claims C4, C5) *)

Section DriverClaims.

Variable W : World.
Variable argResolver : string.

(** C5. When a target fails, wherever it stands in the list, the driver
    writes the one line naming it to the error stream, writes nothing to
    the output, and goes on with the targets that follow. *)
Theorem C5_failed_target_reported_and_skipped
    (singleTarget : bool) (before after : list string) (target e : string)
    (c : CombinedResponse) (s s1 : State) :
  let s0 := snd (forTargets W argResolver singleTarget before (cached ∅ s)) in
  processTarget W argResolver target s0 = ((c, Some e), s1) ->
  let s2 := snd (processOne W argResolver singleTarget target s0) in
  stderr s2 = stderr s0 ++ ["Error processing target " +:+ target +:+ ": " +:+ e +:+ nl]
  /\ stdout s2 = stdout s0
  /\ processTargets W argResolver (before ++ target :: after) singleTarget s
     = forTargets W argResolver singleTarget after s2.
Proof.
  intros s0 P s2.
  destruct (processTarget_streams W argResolver target s0) as [Ho He].
  rewrite P in Ho, He. simpl in Ho, He.
  subst s2. rewrite (processOne_failed _ _ _ _ _ _ _ _ P).
  split; [|split].
  - simpl. rewrite He. reflexivity.
  - simpl. exact Ho.
  - rewrite processTargets_unfold, forTargets_app, forTargets_cons. fold s0.
    rewrite (processOne_failed _ _ _ _ _ _ _ _ P). reflexivity.
Qed.

(** C4, as the code has it.  With encoders that cannot fail, a run
    writes to the output exactly the objects of the targets processed
    without error, each followed by a line feed, in the order of the
    targets: indented in single-target mode, compact in batch mode.  A
    single target therefore yields one indented object when it succeeds
    and no output when it fails. *)
Theorem C4_one_object_per_successful_target
    (targets : list string) (singleTarget : bool) (s : State) :
  MarshalTotal W ->
  let final := snd (processTargets W argResolver targets singleTarget s) in
  let ok := successes (outcomes W argResolver singleTarget targets (cached ∅ s)) in
  stdout final
  = stdout s ++
    map (fun c => rendered W singleTarget c +:+ nl) ok
  /\ length (stdout final) = length (stdout s) + length ok
  /\ (forall target, targets = [target] ->
      ok = match fst (processTarget W argResolver target (cached ∅ s)) with
           | (c, None) => [c]
           | (_, Some _) => []
           end).
Proof.
  intros HM final ok. subst final. rewrite processTargets_unfold.
  rewrite (forTargets_stdout W argResolver singleTarget targets (cached ∅ s) HM).
  fold ok. split; [reflexivity|]. split.
  - rewrite length_app, length_map. reflexivity.
  - intros target ->. subst ok. unfold successes. simpl.
    destruct (processTarget W argResolver target (cached ∅ s)) as [[c [e|]] s1];
      reflexivity.
Qed.

End DriverClaims.

(** ** Reading the targets (claims C8, C9) *)

Lemma append_assoc (a b c : string) : (a +:+ b) +:+ c = a +:+ (b +:+ c).
Proof.
  induction a as [|x a IH]; [reflexivity|].
  rewrite !append_cons, IH. reflexivity.
Qed.

(** A line without line feed, followed by one, is cut off whole. *)
Lemma cutLine_line (l rest : string) :
  cutLine l = None -> cutLine (l +:+ nl +:+ rest) = Some (l, rest).
Proof.
  induction l as [|c l IH]; intros H.
  - reflexivity.
  - rewrite append_cons. simpl in *.
    destruct (Ascii.eqb c LF); [discriminate|].
    destruct (cutLine l) as [[? ?]|]; [discriminate|].
    rewrite IH by reflexivity. reflexivity.
Qed.

Lemma stdinLoop_line (reader reader' : Reader) (line : string) (targets : list string) :
  ReadString reader = (line, None, reader') ->
  stdinLoop reader targets = stdinLoop reader' (targets ++ [TrimSpace line]).
Proof.
  intros H. funelim (stdinLoop reader targets); congruence.
Qed.

Lemma stdinLoop_EOF (reader reader' : Reader) (line : string) (targets : list string) :
  ReadString reader = (line, Some io_EOF, reader') ->
  stdinLoop reader targets = Ok targets.
Proof.
  intros H. funelim (stdinLoop reader targets); congruence.
Qed.

Lemma stdinLoop_failure (reader reader' : Reader) (line e : string) (targets : list string) :
  ReadString reader = (line, Some (ReadFailure e), reader') ->
  stdinLoop reader targets = Err e.
Proof.
  intros H. funelim (stdinLoop reader targets); congruence.
Qed.

(** Standard input holding the terminated [lines] and then [tail], which
    no line feed closes: the targets are the terminated lines. *)
Lemma stdinLoop_unlines (lines : list string) (tail : string) (targets : list string) :
  Forall (fun l => cutLine l = None) lines ->
  cutLine tail = None ->
  stdinLoop (mkReader (unlines lines +:+ tail) io_EOF) targets
  = Ok (targets ++ map (fun l => TrimSpace (l +:+ nl)) lines).
Proof.
  intros Hl Ht. revert targets.
  induction Hl as [|l ls Hl _ IH]; intros targets.
  - simpl unlines. rewrite append_nil. simpl map. rewrite app_nil_r.
    apply (stdinLoop_EOF _ (mkReader EmptyString io_EOF) tail).
    unfold ReadString. cbn [rd_buf rd_end]. rewrite Ht. reflexivity.
  - rewrite (stdinLoop_line _ (mkReader (unlines ls +:+ tail) io_EOF) (l +:+ nl)).
    + rewrite IH, <- app_assoc. reflexivity.
    + unfold ReadString. cbn [rd_buf rd_end]. simpl unlines.
      rewrite !append_assoc, (cutLine_line l _ Hl). reflexivity.
Qed.

Lemma scanLoop_token (scanner scanner' : Scanner) (targets : list string) :
  Scan scanner = (true, scanner') ->
  scanLoop scanner targets = scanLoop scanner' (targets ++ [sc_text scanner']).
Proof.
  intros H. funelim (scanLoop scanner targets); congruence.
Qed.

Lemma scanLoop_stop (scanner scanner' : Scanner) (targets : list string) :
  Scan scanner = (false, scanner') ->
  scanLoop scanner targets = (targets, scanner').
Proof.
  intros H. funelim (scanLoop scanner targets); congruence.
Qed.

(** A file holding the terminated [lines] and then [tail]: the targets
    are the lines as they stand, less a closing carriage return, and the
    unterminated tail is a target too unless it is empty. *)
Lemma scanLoop_unlines (lines : list string) (tail text : string) (targets : list string) :
  Forall scannable lines ->
  scannable tail ->
  fst (scanLoop (mkScanner (unlines lines +:+ tail) io_EOF text None) targets)
  = targets ++ map dropCR lines
            ++ (if decide (tail = EmptyString) then [] else [dropCR tail])
  /\ sc_err (snd (scanLoop (mkScanner (unlines lines +:+ tail) io_EOF text None) targets))
     = None.
Proof.
  intros Hl [Ht Hs]. revert text targets.
  induction Hl as [|l ls [Hl Hn] _ IH]; intros text targets.
  - simpl unlines. rewrite append_nil.
    destruct tail as [|c tail].
    + rewrite (scanLoop_stop _ (mkScanner EmptyString io_EOF text None)) by reflexivity.
      simpl. rewrite app_nil_r. auto.
    + rewrite (scanLoop_token _
                 (mkScanner EmptyString io_EOF (dropCR (String c tail)) None)).
      * rewrite (scanLoop_stop _
                   (mkScanner EmptyString io_EOF (dropCR (String c tail)) None))
          by reflexivity.
        auto.
      * unfold Scan. cbn [sc_buf sc_end sc_text sc_err]. rewrite Ht.
        apply N.ltb_lt in Hs. rewrite N.leb_antisym, Hs. reflexivity.
  - rewrite (scanLoop_token _
               (mkScanner (unlines ls +:+ tail) io_EOF (dropCR l) None)).
    + destruct (IH (dropCR l) (targets ++ [dropCR l])) as [E1 E2].
      cbn [sc_text]. rewrite E1, E2. rewrite <- !app_assoc. auto.
    + unfold Scan. cbn [sc_buf sc_end sc_text sc_err]. simpl unlines.
      rewrite !append_assoc, (cutLine_line l _ Hl).
      apply N.ltb_lt in Hn. rewrite Hn. reflexivity.
Qed.

Section InputClaims.

Variable W : World.
Variable argResolver : string.

(** Only a lone argument that is not a file selects single-target mode. *)
Lemma collectTargets_single (args targets : list string) (s : State) :
  fst (collectTargets W args s) = Some (targets, true) ->
  exists target, targets = [target] /\ head args = Some target.
Proof.
  unfold collectTargets. destruct args as [|firstArg args].
  - destruct (os_Stdin_Stat W) as [[|]|e]; run; try discriminate.
    destruct (stdinLoop _ _); run; discriminate.
  - destruct (os_Stat W firstArg).
    + destruct (os_Open W firstArg) as [file|e]; run; [|discriminate].
      destruct (scanLoop _ _) as [ts sc].
      destruct (sc_err sc); run; discriminate.
    + run. intros [= <-]. eauto.
Qed.

(** C9. On standard input only lines closed by a line feed become
    targets: the bytes after the last line feed are dropped.  An input
    that is a single unterminated line therefore gives no target, and
    [main] stops at the message that no targets were provided. *)
Theorem C9_stdin_drops_unterminated_last_line
    (lines : list string) (tail : string) (s : State) :
  Forall (fun l => cutLine l = None) lines ->
  cutLine tail = None ->
  os_Stdin_Stat W = Ok false ->
  os_Stdin W = mkStream (unlines lines +:+ tail) io_EOF ->
  collectTargets W [] s
  = (Some (map (fun l => TrimSpace (l +:+ nl)) lines, false), s)
  /\ (lines = [] ->
      main W argResolver [] s
      = Eprint ("[!] Hostinfo: No targets provided" +:+ nl) s).
Proof.
  intros Hl Ht Hstat Hin.
  assert (C : collectTargets W [] s
              = (Some (map (fun l => TrimSpace (l +:+ nl)) lines, false), s)).
  { unfold collectTargets. rewrite Hstat, Hin. unfold NewReader. simpl.
    rewrite (stdinLoop_unlines lines tail [] Hl Ht). reflexivity. }
  split; [exact C|].
  intros ->. unfold main. run. rewrite C. reflexivity.
Qed.

End InputClaims.

(** ** The program on concrete inputs *)

(** X19. The URL of a request tells the service and the address apart:
    two addresses share a URL of either service only if they are the
    same address, and no URL of the scan database is a URL of the
    geolocation service. *)
Theorem X19_request_URLs_identify_address_and_service (a b : string) :
  (shodanURL a = shodanURL b <-> a = b)
  /\ (ipinfoURL a = ipinfoURL b <-> a = b)
  /\ shodanURL a <> ipinfoURL b.
Proof.
  split; [|split].
  - split; [apply shodanURL_inj | intros ->; reflexivity].
  - split; [apply ipinfoURL_inj | intros ->; reflexivity].
  - apply shodanURL_ne_ipinfoURL.
Qed.

(** ** Further properties of the pipeline *)

Section RunFacts.

Variable W : World.
Variable argResolver : string.

(** The four ways through [processTarget], each with its result and the
    state it leaves. *)
Lemma processTarget_cases (target : string) (s : State) :
  let R := resolveTarget W argResolver target s in
  let s1 := snd R in
  (exists ip e, R = ((ip, Some e), s1)
     /\ processTarget W argResolver target s = ((zeroCombined, Some e), s1))
  \/ (exists ip c0, R = ((ip, None), s1)
       /\ cachedResponses s !! ip = Some c0
       /\ processTarget W argResolver target s = ((set_Target target c0, None), s1))
  \/ (exists ip e, R = ((ip, None), s1)
       /\ cachedResponses s !! ip = None
       /\ processTarget W argResolver target s
          = ((zeroCombined, Some e),
             logged [EvGet (ipinfoURL ip)] (logged [EvGet (shodanURL ip)] s1)))
  \/ (exists ip c, R = ((ip, None), s1)
       /\ cachedResponses s !! ip = None
       /\ Target c = target /\ IP c = ip
       /\ processTarget W argResolver target s
          = ((c, None),
             cached (<[ip := c]> (cachedResponses s))
               (logged [EvGet (ipinfoURL ip)] (logged [EvGet (shodanURL ip)] s1)))).
Proof.
  intros R s1. subst R s1.
  pose proof (resolveTarget_cache W argResolver target s) as Ec.
  destruct (resolveTarget W argResolver target s) as [[ip [e|]] s1] eqn:E;
    simpl in Ec; simpl snd.
  - left. exists ip, e. split; [reflexivity|].
    apply (processTarget_unresolved _ _ _ _ _ _ _ E).
  - right. destruct (cachedResponses s1 !! ip) as [c0|] eqn:Hc.
    + left. exists ip, c0. split; [reflexivity|].
      split; [rewrite <- Ec; exact Hc|].
      apply (processTarget_hit _ _ _ _ _ _ _ E Hc).
    + right. rewrite (processTarget_miss _ _ _ _ _ _ E Hc). cbv zeta.
      rewrite Ec in Hc. rewrite Ec.
      destruct (snd (fst (fetchIPInfoData W ip _))) as [e|].
      * left. exists ip, e. auto.
      * right.
        exists ip, (mkCombined target ip
                      (fst (fst (fetchIPInfoData W ip (logged [EvGet (shodanURL ip)] s1))))
                      (fst (fst (fetchShodanData W ip s1)))).
        split; [reflexivity|]. split; [exact Hc|].
        split; [reflexivity|]. split; reflexivity.
Qed.

Lemma processTarget_keyed (target : string) (s : State) :
  cacheKeyed (cachedResponses s) ->
  cacheKeyed (cachedResponses (snd (processTarget W argResolver target s))).
Proof.
  intros K.
  pose proof (resolveTarget_cache W argResolver target s) as Ec.
  destruct (processTarget_cases target s)
    as [(ip & e & _ & P)|[(ip & c0 & _ & _ & P)|[(ip & e & _ & _ & P)
        |(ip & c & _ & _ & _ & HI & P)]]];
    rewrite P; simpl; try (rewrite Ec; exact K).
  intros ip' c'. rewrite lookup_insert. case_decide as D.
  - intros [= <-]. congruence.
  - apply K.
Qed.

Lemma forTargets_keyed (singleTarget : bool) (targets : list string) (s : State) :
  cacheKeyed (cachedResponses s) ->
  cacheKeyed (cachedResponses (snd (forTargets W argResolver singleTarget targets s))).
Proof.
  revert s. induction targets as [|t ts IH]; intros s K; [exact K|].
  rewrite forTargets_cons. apply IH.
  destruct (processOne_core W argResolver singleTarget t s) as [-> _].
  apply processTarget_keyed, K.
Qed.

(** X1. At every point of a run of [processTargets] the cache maps each
    address to a record of that address, so a record returned for a
    target, fetched or reused, carries the target's own name in [Target]
    and the address the target resolved to in [IP]. *)
Theorem X1_record_names_target_and_resolved_address
    (singleTarget : bool) (before : list string) (target : string)
    (c : CombinedResponse) (s : State) :
  let s0 := snd (forTargets W argResolver singleTarget before (cached ∅ s)) in
  fst (processTarget W argResolver target s0) = (c, None) ->
  cacheKeyed (cachedResponses s0)
  /\ Target c = target
  /\ fst (resolveTarget W argResolver target s0) = (IP c, None).
Proof.
  intros s0 P.
  assert (K : cacheKeyed (cachedResponses s0)).
  { apply forTargets_keyed. intros ip c'. simpl. rewrite lookup_empty. discriminate. }
  split; [exact K|].
  destruct (processTarget_cases target s0)
    as [(ip & e & _ & Q)|[(ip & c0 & R & Hc & Q)|[(ip & e & _ & _ & Q)
        |(ip & c' & R & _ & HT & HI & Q)]]];
    rewrite Q in P; simpl in P; try discriminate; injection P as <-.
  - simpl. rewrite R. simpl. rewrite (K _ _ Hc). auto.
  - rewrite R. simpl. rewrite HI. auto.
Qed.

(** X2. Every target of a run is answered by exactly one write: an
    object on the output or a line on the error stream, never both and
    never none, whatever the encoders and the network do. *)
Theorem X2_one_write_per_target
    (targets : list string) (singleTarget : bool) (s : State) :
  let final := snd (processTargets W argResolver targets singleTarget s) in
  length (stdout final) + length (stderr final)
  = length (stdout s) + length (stderr s) + length targets.
Proof.
  cbv zeta. rewrite processTargets_unfold.
  change (length (stdout s) + length (stderr s))
    with (length (stdout (cached ∅ s)) + length (stderr (cached ∅ s))).
  generalize (cached ∅ s). clear s.
  induction targets as [|t ts IH]; intros s; [simpl; lia|].
  rewrite forTargets_cons, IH. simpl length.
  destruct (processTarget_streams W argResolver t s) as [Ho He].
  unfold processOne. run.
  destruct (processTarget W argResolver t s) as [[c [e|]] s1]; simpl in *.
  - rewrite length_app, Ho, He. simpl. lia.
  - destruct (json_MarshalIndent W c).
    + destruct singleTarget; simpl.
      * rewrite length_app, Ho, He. simpl. lia.
      * destruct (json_Marshal W c); simpl; rewrite length_app, Ho, He; simpl; lia.
    + simpl. rewrite length_app, Ho, He. simpl. lia.
Qed.

(** X3. A record whose indented encoding fails is reported on the error
    stream and not written, in batch mode too, where the indented text
    would not be used and whatever the compact encoder would answer; the
    record stays in the cache all the same. *)
Theorem X3_indent_failure_suppresses_output
    (singleTarget : bool) (target e : string) (c : CombinedResponse) (s : State) :
  fst (processTarget W argResolver target s) = (c, None) ->
  json_MarshalIndent W c = Err e ->
  let s' := snd (processOne W argResolver singleTarget target s) in
  stdout s' = stdout s
  /\ stderr s' = stderr s ++ ["Error marshalling data for target " +:+ target
                               +:+ ": " +:+ e +:+ nl]
  /\ cachedResponses s' = cachedResponses (snd (processTarget W argResolver target s)).
Proof.
  intros P HM s'. subst s'.
  destruct (processTarget_streams W argResolver target s) as [Ho He].
  unfold processOne. run.
  destruct (processTarget W argResolver target s) as [[c' err] s1]; simpl in *.
  injection P as -> ->. rewrite HM. simpl. rewrite Ho, He. auto.
Qed.

(** X18. Either fetch issues exactly one request, to the URL of the
    address, and changes nothing else.  It succeeds exactly when the
    request is answered and the body decodes, and then returns the
    decoded record; on a failure it returns the zero record, never a
    half-filled one, together with the very error that [http.Get] or the
    decoder gave. *)
Theorem X18_fetch_returns_record_or_zero (ip : string) (s : State) :
  let sec := fetchShodanData W ip s in
  let geo := fetchIPInfoData W ip s in
  snd sec = logged [EvGet (shodanURL ip)] s
  /\ snd geo = logged [EvGet (ipinfoURL ip)] s
  /\ (snd (fst sec) = None <->
      exists body, http_Get W (now s) (shodanURL ip) = Ok body
                   /\ json_Decode_Shodan W body = Ok (fst (fst sec)))
  /\ (snd (fst geo) = None <->
      exists body, http_Get W (now s) (ipinfoURL ip) = Ok body
                   /\ json_Decode_IPInfo W body = Ok (fst (fst geo)))
  /\ (snd (fst sec) <> None -> fst (fst sec) = zeroShodan)
  /\ (snd (fst geo) <> None -> fst (fst geo) = zeroIPInfo)
  /\ (forall e, http_Get W (now s) (shodanURL ip) = Err e ->
       fst sec = (zeroShodan, Some e))
  /\ (forall body e, http_Get W (now s) (shodanURL ip) = Ok body ->
       json_Decode_Shodan W body = Err e ->
       fst sec = (zeroShodan, Some e))
  /\ (forall body d, http_Get W (now s) (shodanURL ip) = Ok body ->
       json_Decode_Shodan W body = Ok d ->
       fst sec = (d, None))
  /\ (forall e, http_Get W (now s) (ipinfoURL ip) = Err e ->
       fst geo = (zeroIPInfo, Some e))
  /\ (forall body e, http_Get W (now s) (ipinfoURL ip) = Ok body ->
       json_Decode_IPInfo W body = Err e ->
       fst geo = (zeroIPInfo, Some e))
  /\ (forall body d, http_Get W (now s) (ipinfoURL ip) = Ok body ->
       json_Decode_IPInfo W body = Ok d ->
       fst geo = (d, None)).
Proof.
  cbv zeta. split; [apply fetchShodanData_state|].
  split; [apply fetchIPInfoData_state|].
  unfold fetchShodanData, fetchIPInfoData. run.
  destruct (http_Get W (now s) (shodanURL ip)) as [b1|e1];
    [destruct (json_Decode_Shodan W b1) as [d1|e1] eqn:D1|];
    (destruct (http_Get W (now s) (ipinfoURL ip)) as [b2|e2];
     [destruct (json_Decode_IPInfo W b2) as [d2|e2] eqn:D2|]);
    simpl; repeat split; try congruence; eauto;
      try (intros [b [[= <-] Q]]; congruence);
      try (intros [b [[=] _]]);
      try (intros ? ? [= <-] Q; congruence).
Qed.

(** What a target adds to the log: a lookup unless it is an IP literal,
    then the two requests, security first, unless the name did not
    resolve or the address is cached. *)
Lemma processTarget_trace (target : string) (s : State) :
  trace (snd (processTarget W argResolver target s))
  = trace s
    ++ (if net_ParseIP W target then [] else [EvLookup target])
    ++ match fst (resolveTarget W argResolver target s) with
       | (ip, None) =>
           match cachedResponses s !! ip with
           | None => [EvGet (shodanURL ip); EvGet (ipinfoURL ip)]
           | Some _ => []
           end
       | (_, Some _) => []
       end.
Proof.
  pose proof (resolveTarget_state W argResolver target s) as St.
  assert (T1 : trace (snd (resolveTarget W argResolver target s))
               = trace s ++ (if net_ParseIP W target then [] else [EvLookup target])).
  { rewrite St. destruct (net_ParseIP W target); simpl; [rewrite app_nil_r|]; reflexivity. }
  destruct (processTarget_cases target s)
    as [(ip & e & R & P)|[(ip & c0 & R & Hc & P)|[(ip & e & R & Hc & P)
        |(ip & c & R & Hc & _ & _ & P)]]];
    rewrite P, R; simpl; rewrite ?Hc, ?T1, ?app_nil_r, <- ?app_assoc; reflexivity.
Qed.

(** X4. Host names are resolved afresh every time: a run looks up each
    target that is not an IP literal exactly once, in the order of the
    targets, even when the same name comes again; IP literals are never
    looked up. *)
Theorem X4_every_name_is_looked_up_once
    (targets : list string) (singleTarget : bool) (s : State) :
  lookups (trace (snd (processTargets W argResolver targets singleTarget s)))
  = lookups (trace s) ++ List.filter (fun t => negb (net_ParseIP W t)) targets.
Proof.
  rewrite processTargets_unfold.
  change (trace s) with (trace (cached ∅ s)). generalize (cached ∅ s). clear s.
  induction targets as [|t ts IH]; intros s; [simpl; rewrite app_nil_r; reflexivity|].
  rewrite forTargets_cons, IH.
  destruct (processOne_core W argResolver singleTarget t s) as [_ ->].
  rewrite processTarget_trace, !lookups_app. simpl List.filter.
  assert (G : lookups
                match fst (resolveTarget W argResolver t s) with
                | (ip, None) =>
                    match cachedResponses s !! ip with
                    | None => [EvGet (shodanURL ip); EvGet (ipinfoURL ip)]
                    | Some _ => []
                    end
                | (_, Some _) => []
                end = []).
  { destruct (fst (resolveTarget W argResolver t s)) as [ip [e|]]; [reflexivity|].
    destruct (cachedResponses s !! ip); reflexivity. }
  rewrite G, app_nil_r.
  destruct (net_ParseIP W t); simpl; rewrite <- ?app_assoc; reflexivity.
Qed.

(** X5. A run of [n] targets makes at most [3 * n] network calls: one
    lookup and two requests per target at most, with no retry. *)
Theorem X5_at_most_three_calls_per_target
    (targets : list string) (singleTarget : bool) (s : State) :
  length (trace (snd (processTargets W argResolver targets singleTarget s)))
  <= length (trace s) + 3 * length targets.
Proof.
  rewrite processTargets_unfold.
  change (trace s) with (trace (cached ∅ s)). generalize (cached ∅ s). clear s.
  induction targets as [|t ts IH]; intros s; [simpl; lia|].
  rewrite forTargets_cons. etransitivity; [apply IH|].
  destruct (processOne_core W argResolver singleTarget t s) as [_ ->].
  rewrite processTarget_trace, !length_app. simpl length.
  destruct (net_ParseIP W t);
    destruct (fst (resolveTarget W argResolver t s)) as [ip [e|]];
    try destruct (cachedResponses s !! ip); simpl; lia.
Qed.

(** No stage of [processTarget] reads or writes the two streams. *)
Lemma resolveTarget_withStreams (target : string) (out err : list string) (s : State) :
  resolveTarget W argResolver target (withStreams out err s)
  = (fst (resolveTarget W argResolver target s),
     withStreams out err (snd (resolveTarget W argResolver target s))).
Proof.
  unfold resolveTarget, resolveHostname, withStreams, now. run. cbn.
  destruct (net_ParseIP W target); [reflexivity|]. cbn.
  destruct (net_LookupIPAddr W argResolver (length (trace s)) target)
    as [[|a l]|e]; reflexivity.
Qed.

Lemma fetchShodanData_withStreams (ip : string) (out err : list string) (s : State) :
  fetchShodanData W ip (withStreams out err s)
  = (fst (fetchShodanData W ip s), withStreams out err (snd (fetchShodanData W ip s))).
Proof.
  unfold fetchShodanData, withStreams, now. run. cbn.
  destruct (http_Get W (length (trace s)) (shodanURL ip)) as [b|e]; [|reflexivity].
  destruct (json_Decode_Shodan W b); reflexivity.
Qed.

Lemma fetchIPInfoData_withStreams (ip : string) (out err : list string) (s : State) :
  fetchIPInfoData W ip (withStreams out err s)
  = (fst (fetchIPInfoData W ip s), withStreams out err (snd (fetchIPInfoData W ip s))).
Proof.
  unfold fetchIPInfoData, withStreams, now. run. cbn.
  destruct (http_Get W (length (trace s)) (ipinfoURL ip)) as [b|e]; [|reflexivity].
  destruct (json_Decode_IPInfo W b); reflexivity.
Qed.

Lemma processTarget_withStreams (target : string) (out err : list string) (s : State) :
  processTarget W argResolver target (withStreams out err s)
  = (fst (processTarget W argResolver target s),
     withStreams out err (snd (processTarget W argResolver target s))).
Proof.
  rewrite !processTarget_unfold, resolveTarget_withStreams.
  destruct (resolveTarget W argResolver target s) as [[ip [e|]] s1]; [reflexivity|].
  simpl fst. simpl snd. cbv beta iota.
  change (cachedResponses (withStreams out err s1)) with (cachedResponses s1).
  destruct (cachedResponses s1 !! ip) as [c|]; [reflexivity|].
  rewrite fetchShodanData_withStreams.
  destruct (fetchShodanData W ip s1) as [[sd e1] s2]. simpl fst. simpl snd.
  cbv beta iota. rewrite fetchIPInfoData_withStreams.
  destruct (fetchIPInfoData W ip s2) as [[gd [e|]] s3]; reflexivity.
Qed.

(** The two output modes keep cache and log in step, target by target. *)
Lemma forTargets_modes (targets : list string) (s s' : State) :
  cachedResponses s = cachedResponses s' ->
  trace s = trace s' ->
  let f := snd (forTargets W argResolver true targets s) in
  let f' := snd (forTargets W argResolver false targets s') in
  cachedResponses f = cachedResponses f'
  /\ trace f = trace f'
  /\ outcomes W argResolver true targets s = outcomes W argResolver false targets s'.
Proof.
  revert s s'. induction targets as [|t ts IH]; intros s s' Ec Et; [simpl; auto|].
  cbv zeta. rewrite !forTargets_cons. simpl outcomes.
  assert (E : s' = withStreams (stdout s') (stderr s') s).
  { destruct s, s'. simpl in *. subst. reflexivity. }
  pose proof (processTarget_withStreams t (stdout s') (stderr s') s) as P.
  rewrite <- E in P.
  destruct (processOne_core W argResolver true t s) as [C1 T1].
  destruct (processOne_core W argResolver false t s') as [C2 T2].
  rewrite P in C2, T2. simpl in C2, T2.
  destruct (IH (snd (processOne W argResolver true t s))
               (snd (processOne W argResolver false t s'))) as (A & B & C).
  - rewrite C1, C2. reflexivity.
  - rewrite T1, T2. reflexivity.
  - rewrite P. simpl fst. rewrite C. auto.
Qed.

(** X6. The output mode changes the text written and nothing else: a
    list of targets run in single-target mode and in batch mode makes
    the same network calls, fills the cache alike, and gets the same
    record or error for every target. *)
Theorem X6_output_mode_does_not_change_the_work
    (targets : list string) (s : State) :
  let single := snd (processTargets W argResolver targets true s) in
  let batch := snd (processTargets W argResolver targets false s) in
  cachedResponses single = cachedResponses batch
  /\ trace single = trace batch
  /\ outcomes W argResolver true targets (cached ∅ s)
     = outcomes W argResolver false targets (cached ∅ s).
Proof.
  cbv zeta. rewrite !processTargets_unfold.
  apply forTargets_modes; reflexivity.
Qed.

(** Every record a run returned is, at the end of the run, the cache
    entry of its address under the name of its target. *)
Lemma outcomes_cached (singleTarget : bool) (targets : list string) (s : State) :
  cacheKeyed (cachedResponses s) ->
  forall c, c ∈ successes (outcomes W argResolver singleTarget targets s) ->
  exists c0,
    cachedResponses (snd (forTargets W argResolver singleTarget targets s)) !! IP c
    = Some c0
    /\ c = set_Target (Target c) c0.
Proof.
  revert s. induction targets as [|t ts IH]; intros s K c Hin.
  - simpl in Hin. inversion Hin.
  - rewrite forTargets_cons.
    destruct (processOne_core W argResolver singleTarget t s) as [Ec _].
    assert (K1 : cacheKeyed (cachedResponses (snd (processOne W argResolver singleTarget t s)))).
    { rewrite Ec. apply processTarget_keyed, K. }
    unfold successes in Hin. simpl in Hin.
    destruct (processTarget W argResolver t s) as [[c1 [e|]] s1] eqn:P; simpl in Hin.
    + apply (IH _ K1 c Hin).
    + apply elem_of_cons in Hin as [->|Hin]; [|apply (IH _ K1 c Hin)].
      destruct (resolveTarget W argResolver t s) as [[ip err] s0] eqn:R.
      assert (err = None) as ->.
      { destruct err as [e|]; [|reflexivity].
        rewrite (processTarget_unresolved _ _ _ _ _ _ _ R) in P. discriminate. }
      destruct (processTarget_ok_cached W argResolver t ip c1 s) as (c0 & Hc0 & Eq);
        [rewrite R; reflexivity | rewrite P; reflexivity |].
      rewrite P in Hc0. rewrite <- Ec in Hc0.
      destruct (forTargets_settled W argResolver singleTarget ts ip c0 _ Hc0) as (F & _).
      exists c0. rewrite Eq at 1. simpl. rewrite (K1 _ _ Hc0). split; [exact F|].
      rewrite Eq. reflexivity.
Qed.

(** X7. Every record a run has returned is still in the cache when the
    run ends, under the address in its [IP] field; the record and the
    entry differ in [Target] at most. *)
Theorem X7_returned_records_stay_cached
    (targets : list string) (singleTarget : bool) (s : State) (c : CombinedResponse) :
  c ∈ successes (outcomes W argResolver singleTarget targets (cached ∅ s)) ->
  exists c0,
    cachedResponses (snd (processTargets W argResolver targets singleTarget s)) !! IP c
    = Some c0
    /\ IP c0 = IP c
    /\ emb_IPInfo c0 = emb_IPInfo c
    /\ emb_Shodan c0 = emb_Shodan c.
Proof.
  intros Hin. rewrite processTargets_unfold.
  destruct (outcomes_cached singleTarget targets (cached ∅ s)) with (c := c)
    as (c0 & Hc0 & Eq); [|exact Hin|].
  - intros ip c'. simpl. rewrite lookup_empty. discriminate.
  - exists c0. split; [exact Hc0|]. rewrite Eq. simpl. auto.
Qed.

(** X8. Two targets of one run that resolve to the same address and both
    succeed get the same geolocation and security fields, whatever the
    services would have answered the second time. *)
Theorem X8_same_address_same_enrichment
    (targets : list string) (singleTarget : bool) (s : State)
    (c1 c2 : CombinedResponse) :
  c1 ∈ successes (outcomes W argResolver singleTarget targets (cached ∅ s)) ->
  c2 ∈ successes (outcomes W argResolver singleTarget targets (cached ∅ s)) ->
  IP c1 = IP c2 ->
  emb_IPInfo c1 = emb_IPInfo c2 /\ emb_Shodan c1 = emb_Shodan c2.
Proof.
  intros H1 H2 E.
  assert (K : cacheKeyed (cachedResponses (cached ∅ s))).
  { intros ip c'. simpl. rewrite lookup_empty. discriminate. }
  destruct (outcomes_cached singleTarget targets _ K c1 H1) as (a & Ha & E1).
  destruct (outcomes_cached singleTarget targets _ K c2 H2) as (b & Hb & E2).
  rewrite E, Hb in Ha. injection Ha as ->.
  rewrite E1, E2. simpl. auto.
Qed.

(** X9. The records returned by a run carry the names of their targets,
    in the order of the input and without repeats of a position: their
    [Target] fields form a sublist of the target list. *)
Theorem X9_returned_records_follow_the_targets
    (targets : list string) (singleTarget : bool) (s : State) :
  sublist (map Target (successes (outcomes W argResolver singleTarget targets s)))
          targets.
Proof.
  revert s. induction targets as [|t ts IH]; intros s; [constructor|].
  unfold successes. simpl.
  destruct (processTarget_cases t s)
    as [(ip & e & _ & P)|[(ip & c0 & _ & _ & P)|[(ip & e & _ & _ & P)
        |(ip & c & _ & _ & HT & _ & P)]]];
    rewrite P; simpl.
  - apply sublist_cons, IH.
  - apply sublist_skip, IH.
  - apply sublist_cons, IH.
  - rewrite HT. apply sublist_skip, IH.
Qed.

(** X21. With encoders that cannot fail, the error stream of a run gets
    exactly the lines of the targets that failed, one each, naming the
    target and its error, in the order of the input. *)
Theorem X21_error_stream_lists_failed_targets
    (targets : list string) (singleTarget : bool) (s : State) :
  MarshalTotal W ->
  stderr (snd (processTargets W argResolver targets singleTarget s))
  = stderr s
    ++ failureLines targets (outcomes W argResolver singleTarget targets (cached ∅ s)).
Proof.
  intros HM. rewrite processTargets_unfold.
  change (stderr s) with (stderr (cached ∅ s)). generalize (cached ∅ s). clear s.
  induction targets as [|t ts IH]; intros s.
  - simpl. rewrite app_nil_r. reflexivity.
  - rewrite forTargets_cons, IH. unfold failureLines. simpl outcomes. simpl zip.
    destruct (processTarget_streams W argResolver t s) as [_ He].
    assert (E : stderr (snd (processOne W argResolver singleTarget t s))
                = stderr s ++ match snd (fst (processTarget W argResolver t s)) with
                              | Some e => [errorLine t e]
                              | None => []
                              end).
    { unfold processOne. run.
      destruct (processTarget W argResolver t s) as [[c [e|]] s1]; simpl in *.
      - rewrite He. reflexivity.
      - destruct (HM c) as [[j1 E1] [j2 E2]]. rewrite E1.
        destruct singleTarget; simpl; rewrite ?E2; simpl;
          rewrite He, app_nil_r; reflexivity. }
    rewrite E, <- app_assoc. f_equal.
    destruct (processTarget W argResolver t s) as [[c [e|]] s1]; reflexivity.
Qed.

End RunFacts.

(** X22. The resolver given with [-r] matters to name lookups only: a
    run whose targets are all IP literals is the same under any two
    settings of it. *)
Theorem X22_resolver_flag_is_for_names_only
    (W : World) (r1 r2 : string) (targets : list string)
    (singleTarget : bool) (s : State) :
  Forall (fun t => net_ParseIP W t = true) targets ->
  processTargets W r1 targets singleTarget s
  = processTargets W r2 targets singleTarget s.
Proof.
  intros H. rewrite !processTargets_unfold. generalize (cached ∅ s). clear s.
  induction H as [|t ts Ht _ IH]; intros s; [reflexivity|].
  rewrite !forTargets_cons.
  assert (E : processOne W r1 singleTarget t s = processOne W r2 singleTarget t s).
  { unfold processOne, processTarget, resolveTarget. rewrite Ht. reflexivity. }
  rewrite E. apply IH.
Qed.


(** ** Further properties of the input stage *)

Lemma rev_app_append (x y acc : string) :
  String.rev_app (x +:+ y) acc = String.rev_app y (String.rev_app x acc).
Proof.
  revert acc. induction x as [|a x IH]; intros acc; [reflexivity|].
  rewrite append_cons. simpl. apply IH.
Qed.

Lemma rev_snoc (x : string) (c : ascii) :
  String.rev (x +:+ String c EmptyString) = String c (String.rev x).
Proof. unfold String.rev. rewrite rev_app_append. reflexivity. Qed.

Lemma is_space_not_rune2 (a c : ascii) :
  Ascii.is_space c = true -> isSpace2 a c = false.
Proof.
  intros H. unfold isSpace2.
  destruct c as [[] [] [] [] [] [] [] []]; try discriminate H;
    simpl; apply andb_false_r.
Qed.

Lemma is_space_not_rune3 (a b c : ascii) :
  Ascii.is_space c = true -> isSpace3 a b c = false.
Proof.
  intros H. unfold isSpace3.
  destruct c as [[] [] [] [] [] [] [] []]; try discriminate H; simpl;
    rewrite ?andb_false_r; reflexivity.
Qed.

Lemma dropSpace_snoc_space (c : ascii) (l : string) :
  Ascii.is_space c = true ->
  dropSpace false (l +:+ String c EmptyString)
  = match dropSpace false l with
    | EmptyString => EmptyString
    | String a r => String a r +:+ String c EmptyString
    end.
Proof.
  intros Hc.
  assert (G : forall n l, String.length l <= n ->
    dropSpace false (l +:+ String c EmptyString)
    = match dropSpace false l with
      | EmptyString => EmptyString
      | String a r => String a r +:+ String c EmptyString
      end).
  { clear l. induction n as [|n IH]; intros l Hl.
    - destruct l; [|simpl in Hl; lia]. rewrite append_nil. simpl. rewrite Hc. reflexivity.
    - destruct l as [|a l1]; [rewrite append_nil; simpl; rewrite Hc; reflexivity|].
      simpl in Hl. rewrite append_cons.
      destruct (Ascii.is_space a) eqn:Ha.
      + simpl. rewrite Ha. apply IH. lia.
      + destruct l1 as [|b l2].
        * rewrite append_nil. simpl. rewrite Ha, (is_space_not_rune2 a c Hc). reflexivity.
        * rewrite append_cons. simpl in Hl.
          destruct (isSpace2 a b) eqn:Hab.
          -- simpl. rewrite Ha, Hab. apply IH. lia.
          -- destruct l2 as [|d l3].
             ++ rewrite append_nil. simpl.
                rewrite Ha, Hab, (is_space_not_rune3 a b c Hc). reflexivity.
             ++ rewrite append_cons. simpl in Hl.
                destruct (isSpace3 a b d) eqn:Habd.
                ** simpl. rewrite Ha, Hab, Habd. apply IH. lia.
                ** simpl. rewrite Ha, Hab, Habd. reflexivity. }
  apply (G (String.length l)). lia.
Qed.

Lemma TrimSpace_snoc_space (c : ascii) (l : string) :
  Ascii.is_space c = true ->
  TrimSpace (l +:+ String c EmptyString) = TrimSpace l.
Proof.
  intros Hc. unfold TrimSpace. rewrite (dropSpace_snoc_space c l Hc).
  destruct (dropSpace false l) as [|a r]; [reflexivity|].
  rewrite rev_snoc. simpl. rewrite Hc. reflexivity.
Qed.

Lemma TrimSpace_line (l : string) : TrimSpace (l +:+ nl) = TrimSpace l.
Proof. apply TrimSpace_snoc_space. reflexivity. Qed.

Lemma cutLine_snoc_CR (l : string) :
  cutLine l = None -> cutLine (l +:+ String CR EmptyString) = None.
Proof.
  induction l as [|c l IH]; intros H; [reflexivity|].
  rewrite append_cons. simpl in *.
  destruct (Ascii.eqb c LF); [discriminate|].
  destruct (cutLine l) as [[? ?]|]; [discriminate|].
  rewrite IH by reflexivity. reflexivity.
Qed.

Lemma dropCR_snoc_CR (l : string) : dropCR (l +:+ String CR EmptyString) = l.
Proof.
  induction l as [|c l IH]; [reflexivity|].
  rewrite append_cons. simpl. rewrite IH.
  destruct l; reflexivity.
Qed.

Lemma scannable_without_CR (l : string) :
  scannable (l +:+ String CR EmptyString) -> scannable l.
Proof.
  intros [Hc Hn]. split.
  - clear Hn. induction l as [|c l IH]; [reflexivity|].
    rewrite append_cons in Hc. simpl in *.
    destruct (Ascii.eqb c LF); [discriminate|].
    destruct (cutLine (l +:+ String CR EmptyString)) as [[? ?]|]; [discriminate|].
    rewrite IH by reflexivity. reflexivity.
  - rewrite length_append in Hn. simpl in Hn. lia.
Qed.

(** A read failure on standard input wins over the lines read before. *)
Lemma ReadString_error (reader reader' : Reader) (line : string) (err : readError) :
  ReadString reader = (line, Some err, reader') -> err = rd_end reader.
Proof.
  unfold ReadString. destruct (cutLine (rd_buf reader)) as [[? ?]|]; [discriminate|].
  intros [= _ <- _]. reflexivity.
Qed.

Lemma ReadString_rest (reader reader' : Reader) (line : string) :
  ReadString reader = (line, None, reader') -> rd_end reader' = rd_end reader.
Proof.
  unfold ReadString. destruct (cutLine (rd_buf reader)) as [[? ?]|]; [|discriminate].
  intros [= _ <-]. reflexivity.
Qed.

Lemma stdinLoop_read_failure (reader : Reader) (targets : list string) (msg : string) :
  rd_end reader = ReadFailure msg -> stdinLoop reader targets = Err msg.
Proof.
  intros Hend. funelim (stdinLoop reader targets).
  - match goal with E : ReadString _ = _ |- _ =>
      pose proof (ReadString_error _ _ _ _ E) end.
    congruence.
  - match goal with E : ReadString _ = _ |- _ =>
      pose proof (ReadString_error _ _ _ _ E) end.
    congruence.
  - match goal with E : ReadString _ = _ |- _ =>
      pose proof (ReadString_rest _ _ _ E) end.
    match goal with IH : context [Err _] |- _ => apply IH end. congruence.
Qed.

Lemma Scan_goes_on (sc sc' : Scanner) :
  Scan sc = (true, sc') -> sc_end sc' = sc_end sc /\ sc_err sc' = sc_err sc.
Proof.
  unfold Scan. destruct (cutLine (sc_buf sc)) as [[? ?]|].
  - destruct (N.ltb _ _); [|discriminate]. intros [= <-]. auto.
  - destruct (N.leb _ _); [discriminate|].
    destruct (sc_buf sc); [discriminate|]. intros [= <-]. auto.
Qed.

Lemma Scan_stops (sc sc' : Scanner) :
  Scan sc = (false, sc') ->
  sc_err sc' = Some ErrTooLong
  \/ sc_err sc' = match sc_end sc with
                  | io_EOF => sc_err sc
                  | ReadFailure e => Some e
                  end.
Proof.
  unfold Scan. destruct (cutLine (sc_buf sc)) as [[? ?]|].
  - destruct (N.ltb _ _); [discriminate|]. intros [= <-]. auto.
  - destruct (N.leb _ _); [intros [= <-]; auto|].
    destruct (sc_buf sc); [|discriminate]. intros [= <-]. auto.
Qed.

(** The scanner reports a read failure of the file, unless a line too
    long stopped it before. *)
Lemma scanLoop_read_failure (scanner : Scanner) (targets : list string) (msg : string) :
  sc_end scanner = ReadFailure msg ->
  sc_err (snd (scanLoop scanner targets)) = Some msg
  \/ sc_err (snd (scanLoop scanner targets)) = Some ErrTooLong.
Proof.
  intros Hend. funelim (scanLoop scanner targets).
  - match goal with E : Scan _ = _ |- _ =>
      destruct (Scan_goes_on _ _ E) as [E1 E2] end.
    match goal with IH : context [ErrTooLong] |- _ => apply IH end. congruence.
  - match goal with E : Scan _ = _ |- _ =>
      destruct (Scan_stops _ _ E) as [E1|E1] end;
      simpl; [auto|]. rewrite Hend in E1. auto.
Qed.

Lemma append_empty_r (a : string) : a +:+ EmptyString = a.
Proof.
  induction a as [|c a IH]; [reflexivity|]. rewrite append_cons, IH. reflexivity.
Qed.

(** One line too long spoils the whole file, wherever it stands. *)
Lemma scanLoop_too_long (lines : list string) (long post text : string)
    (fin : readError) (targets : list string) :
  Forall (fun l => cutLine l = None) lines ->
  cutLine long = None ->
  (MaxScanTokenSize <= N.of_nat (String.length long))%N ->
  post = EmptyString \/ (exists m, post = nl +:+ m) ->
  sc_err (snd (scanLoop (mkScanner (unlines lines +:+ long +:+ post) fin text None) targets))
  = Some ErrTooLong.
Proof.
  intros Hl Hlong Hlen Hpost. revert text targets.
  induction Hl as [|l ls Hl _ IH]; intros text targets.
  - simpl unlines. rewrite append_nil.
    rewrite (scanLoop_stop _
               (mkScanner (long +:+ post) fin text (Some ErrTooLong))); [reflexivity|].
    unfold Scan. cbn [sc_buf sc_end sc_text sc_err].
    destruct Hpost as [->|[m ->]].
    + rewrite append_empty_r, Hlong.
      apply N.leb_le in Hlen. rewrite Hlen. reflexivity.
    + rewrite (cutLine_line long m Hlong).
      apply N.ltb_ge in Hlen. rewrite Hlen. reflexivity.
  - simpl unlines. rewrite !append_assoc.
    destruct (N.of_nat (String.length l) <? MaxScanTokenSize)%N eqn:Hn.
    + rewrite (scanLoop_token _
                 (mkScanner (unlines ls +:+ long +:+ post) fin (dropCR l) None)).
      * apply IH.
      * unfold Scan. cbn [sc_buf sc_end sc_text sc_err].
        rewrite (cutLine_line l _ Hl), Hn. reflexivity.
    + rewrite (scanLoop_stop _
                 (mkScanner (l +:+ nl +:+ unlines ls +:+ long +:+ post) fin text
                    (Some ErrTooLong))); [reflexivity|].
      unfold Scan. cbn [sc_buf sc_end sc_text sc_err].
      rewrite (cutLine_line l _ Hl), Hn. reflexivity.
Qed.

Section InputFacts.

Variable W : World.
Variable argResolver : string.

(** Collecting the targets touches neither the network, nor the output,
    nor the cache; it either hands targets on and leaves the state as it
    was, or gives up with at least one line on the error stream. *)
Lemma collectTargets_frame (args : list string) (s : State) :
  let r := collectTargets W args s in
  trace (snd r) = trace s
  /\ stdout (snd r) = stdout s
  /\ cachedResponses (snd r) = cachedResponses s
  /\ (fst r = None -> length (stderr s) < length (stderr (snd r)))
  /\ (fst r <> None -> snd r = s).
Proof.
  unfold collectTargets, Usage. destruct args as [|firstArg args].
  - destruct (os_Stdin_Stat W) as [[|]|e]; run.
    + repeat split; try reflexivity; [|congruence].
      intros _. rewrite !length_app. simpl. lia.
    + destruct (stdinLoop _ _); run.
      * repeat split; try reflexivity. discriminate.
      * repeat split; try reflexivity; [|congruence].
        intros _. rewrite !length_app. simpl. lia.
    + repeat split; try reflexivity; [|congruence].
      intros _. rewrite !length_app. simpl. lia.
  - destruct (os_Stat W firstArg).
    + destruct (os_Open W firstArg) as [file|e]; run.
      * destruct (scanLoop _ _) as [ts sc]. destruct (sc_err sc); run.
        -- repeat split; try reflexivity; [|congruence].
           intros _. rewrite !length_app. simpl. lia.
        -- repeat split; try reflexivity. discriminate.
      * repeat split; try reflexivity; [|congruence].
        intros _. rewrite !length_app. simpl. lia.
    + run. repeat split; try reflexivity. discriminate.
Qed.

(** X10. With no argument and a terminal on standard input, [main]
    writes the usage text (three lines and the flag defaults) to the
    error stream and does nothing else: no output, no network call. *)
Theorem X10_terminal_prints_usage_only (s : State) :
  os_Stdin_Stat W = Ok true ->
  let final := snd (main W argResolver [] s) in
  stderr final
  = stderr s ++ ["[!] Usage: " +:+ os_Args0 W +:+ " [file|target]" +:+ nl;
                 "If no arguments are provided, targets will be read from stdin." +:+ nl;
                 "Options:" +:+ nl;
                 flag_PrintDefaults W]
  /\ stdout final = stdout s
  /\ trace final = trace s
  /\ cachedResponses final = cachedResponses s.
Proof.
  intros H. unfold main, collectTargets, Usage. rewrite H. run.
  rewrite <- !app_assoc. auto.
Qed.

(** X11. Unless at least one target was collected, [main] makes no
    network call, writes nothing to the output and leaves the cache
    alone; it always leaves a message on the error stream then. *)
Theorem X11_no_target_no_work (args : list string) (s : State) :
  (forall t ts b, fst (collectTargets W args s) <> Some (t :: ts, b)) ->
  let final := snd (main W argResolver args s) in
  trace final = trace s
  /\ stdout final = stdout s
  /\ cachedResponses final = cachedResponses s
  /\ length (stderr s) < length (stderr final).
Proof.
  intros H. destruct (collectTargets_frame args s) as (T & O & C & E1 & E2).
  unfold main. run.
  destruct (collectTargets W args s) as [[[[|t ts] b]|] s1]; simpl in *.
  - rewrite E2 by discriminate. simpl. repeat split; try reflexivity.
    rewrite length_app. simpl. lia.
  - exfalso. apply (H t ts b). reflexivity.
  - auto.
Qed.

(** X12. A read failure on standard input stops the program with one
    error line: the lines read before the failure are dropped and no
    target is processed. *)
Theorem X12_stdin_read_failure_aborts (data e : string) (s : State) :
  os_Stdin_Stat W = Ok false ->
  os_Stdin W = mkStream data (ReadFailure e) ->
  main W argResolver [] s = Eprint ("Error reading stdin: " +:+ e +:+ nl) s.
Proof.
  intros Hs Hin. unfold main, collectTargets. rewrite Hs, Hin.
  rewrite (stdinLoop_read_failure _ _ e) by reflexivity. reflexivity.
Qed.

(** X13. A read failure on the file stops the program with one error
    line, carrying the failure or the scanner's own complaint about a
    line too long met before it; no target is processed. *)
Theorem X13_file_read_failure_aborts
    (firstArg data e : string) (others : list string) (s : State) :
  os_Stat W firstArg = true ->
  os_Open W firstArg = Ok (mkStream data (ReadFailure e)) ->
  exists msg,
    (msg = e \/ msg = ErrTooLong)
    /\ main W argResolver (firstArg :: others) s
       = Eprint ("Error reading file: " +:+ msg +:+ nl) s.
Proof.
  intros Hs Ho. unfold main, collectTargets. rewrite Hs, Ho.
  destruct (scanLoop_read_failure (NewScanner (mkStream data (ReadFailure e))) [] e)
    as [E|E]; [reflexivity| |];
    destruct (scanLoop _ _) as [ts sc]; simpl in E; rewrite E.
  - exists e. auto.
  - exists ErrTooLong. auto.
Qed.

(** X14. A file with a line of 65536 bytes or more is refused as a
    whole: the one error line says the token is too long, and the
    targets on the lines before it are not processed either. *)
Theorem X14_line_too_long_rejects_file
    (firstArg long post : string) (lines others : list string)
    (fin : readError) (s : State) :
  os_Stat W firstArg = true ->
  os_Open W firstArg = Ok (mkStream (unlines lines +:+ long +:+ post) fin) ->
  Forall (fun l => cutLine l = None) lines ->
  cutLine long = None ->
  (MaxScanTokenSize <= N.of_nat (String.length long))%N ->
  post = EmptyString \/ (exists m, post = nl +:+ m) ->
  main W argResolver (firstArg :: others) s
  = Eprint ("Error reading file: " +:+ "bufio.Scanner: token too long" +:+ nl) s.
Proof.
  intros Hs Ho Hl Hlong Hlen Hpost. unfold main, collectTargets. rewrite Hs, Ho.
  pose proof (scanLoop_too_long lines long post EmptyString fin [] Hl Hlong Hlen Hpost) as E.
  unfold NewScanner. cbn [stream_data stream_end].
  destruct (scanLoop _ _) as [ts sc]. simpl in E. rewrite E. reflexivity.
Qed.

(** X15. The targets read from a file are its lines as written, less
    the line feed and one carriage return before it: blanks stay, an
    empty line is an empty target, and the bytes after the last line
    feed are a target too unless there are none.  Arguments after the
    first are not looked at. *)
Theorem X15_file_lines_are_targets_as_written
    (firstArg tail : string) (lines others : list string) (s : State) :
  os_Stat W firstArg = true ->
  os_Open W firstArg = Ok (mkStream (unlines lines +:+ tail) io_EOF) ->
  Forall scannable lines ->
  scannable tail ->
  collectTargets W (firstArg :: others) s
  = (Some (map dropCR lines
             ++ (if decide (tail = EmptyString) then [] else [dropCR tail]), false), s).
Proof.
  intros Hs Ho Hl Ht. unfold collectTargets. rewrite Hs, Ho.
  unfold NewScanner. cbn [stream_data stream_end].
  destruct (scanLoop_unlines lines tail EmptyString [] Hl Ht) as [E1 E2].
  destruct (scanLoop _ _) as [ts sc]. simpl in E1, E2. rewrite E1, E2. reflexivity.
Qed.

(** X16. A file with Windows line ends gives its lines, without the
    carriage return and the line feed, as targets.  The same lines in a
    file with plain line feeds give the lines with [dropCR] applied, so
    the two files give the same targets provided no line itself ends in
    a carriage return. *)
Theorem X16_file_with_CRLF_line_ends
    (dos unix : string) (lines others others' : list string) (s : State) :
  os_Stat W dos = true ->
  os_Open W dos
  = Ok (mkStream (unlines (map (fun l => l +:+ String CR EmptyString) lines)) io_EOF) ->
  os_Stat W unix = true ->
  os_Open W unix = Ok (mkStream (unlines lines) io_EOF) ->
  Forall scannable (map (fun l => l +:+ String CR EmptyString) lines) ->
  collectTargets W (dos :: others) s = (Some (lines, false), s)
  /\ collectTargets W (unix :: others') s = (Some (map dropCR lines, false), s)
  /\ (Forall (fun l => dropCR l = l) lines ->
      collectTargets W (unix :: others') s = collectTargets W (dos :: others) s).
Proof.
  intros Hs Ho Hs' Ho' Hl.
  assert (Ht : scannable EmptyString) by (split; reflexivity).
  assert (D : collectTargets W (dos :: others) s = (Some (lines, false), s)).
  { unfold collectTargets. rewrite Hs, Ho.
    unfold NewScanner. cbn [stream_data stream_end].
    destruct (scanLoop_unlines _ EmptyString EmptyString [] Hl Ht) as [E1 E2].
    rewrite append_empty_r in E1, E2.
    destruct (scanLoop _ _) as [ts sc]. simpl in E1, E2. rewrite E1, E2.
    rewrite map_map, app_nil_r.
    rewrite (map_ext _ id), map_id; [reflexivity|].
    intros l. apply dropCR_snoc_CR. }
  assert (U : collectTargets W (unix :: others') s = (Some (map dropCR lines, false), s)).
  { unfold collectTargets. rewrite Hs', Ho'.
    unfold NewScanner. cbn [stream_data stream_end].
    assert (Hl' : Forall scannable lines).
    { clear -Hl. induction lines as [|l ls IH]; [constructor|].
      simpl in Hl. inversion Hl as [|? ? H1 H2]; subst.
      constructor; [apply scannable_without_CR, H1 | apply IH, H2]. }
    destruct (scanLoop_unlines lines EmptyString EmptyString [] Hl' Ht) as [E1 E2].
    rewrite append_empty_r in E1, E2.
    destruct (scanLoop _ _) as [ts sc]. simpl in E1, E2. rewrite E1, E2.
    rewrite app_nil_r. reflexivity. }
  split; [exact D|]. split; [exact U|].
  intros Hcr. rewrite D, U.
  assert (E : map dropCR lines = lines).
  { clear -Hcr. induction Hcr as [|l ls E _ IH]; [reflexivity|].
    simpl. rewrite E, IH. reflexivity. }
  rewrite E. reflexivity.
Qed.

(** X17. The targets read from standard input are its terminated lines
    trimmed of surrounding white space; the line feed, and a carriage
    return before it, go with the white space. *)
Theorem X17_stdin_targets_are_trimmed_lines
    (crlf : bool) (lines : list string) (tail : string) (s : State) :
  Forall (fun l => cutLine l = None) lines ->
  cutLine tail = None ->
  os_Stdin_Stat W = Ok false ->
  os_Stdin W
  = mkStream (unlines (map (fun l => if crlf then l +:+ String CR EmptyString else l)
                           lines) +:+ tail) io_EOF ->
  collectTargets W [] s = (Some (map TrimSpace lines, false), s).
Proof.
  intros Hl Ht Hs Hin. unfold collectTargets. rewrite Hs, Hin.
  unfold NewReader. cbn [stream_data stream_end].
  rewrite stdinLoop_unlines.
  - simpl. rewrite map_map. do 3 f_equal. apply map_ext. intros l.
    rewrite TrimSpace_line. destruct crlf; [|reflexivity].
    apply TrimSpace_snoc_space. reflexivity.
  - apply Forall_map. eapply Forall_impl; [exact Hl|].
    intros l H. simpl. destruct crlf; [apply cutLine_snoc_CR|]; exact H.
  - exact Ht.
Qed.

End InputFacts.

Module Runs.

Import Sample.

Lemma W0_MarshalTotal : MarshalTotal W0.
Proof. intros c. split; eexists; reflexivity. Defined.

Lemma C1_witness :
  exists c',
    processTarget W0 "" "dns.google" s8
    = ((c', None), logged [EvLookup "dns.google"] s8)
    /\ Target c' = "dns.google"
    /\ IP c' = "8.8.8.8"
    /\ emb_IPInfo c' = ipinfoOf ""
    /\ emb_Shodan c' = shodanOf ""
    /\ cachedResponses (logged [EvLookup "dns.google"] s8) = cachedResponses s8.
Proof.
  apply (C1_cache_hit_returns_cached_record W0 "" "dns.google" "8.8.8.8" c8 s8);
    vm_compute; reflexivity.
Defined.

(** C2 fails as stated: the address 8.8.8.8 given twice, with the
    geolocation service failing the first time, is fetched twice from
    each service, not at most once. *)
Lemma C2_counterexample_failed_pair_is_repeated :
  let final := snd (processTargets Wflaky "" ["8.8.8.8"; "8.8.8.8"] false initState) in
  trace final
  = [EvGet (shodanURL "8.8.8.8"); EvGet (ipinfoURL "8.8.8.8");
     EvGet (shodanURL "8.8.8.8"); EvGet (ipinfoURL "8.8.8.8")]
  /\ ~ (gets (shodanURL "8.8.8.8") (trace final) <= 1)
  /\ ~ (gets (ipinfoURL "8.8.8.8") (trace final) <= 1).
Proof.
  split; [vm_compute; reflexivity|].
  split; vm_compute; lia.
Qed.

Lemma C2_witness :
  let s0 := snd (resolveTarget W0 "" "dns.google" initState) in
  let s1 := snd (processOne W0 "" false "dns.google" initState) in
  let s2 := snd (forTargets W0 "" false ["8.8.8.8"; "dns.google"] s1) in
  (is_Some (cachedResponses initState !! "8.8.8.8") -> trace s1 = trace s0)
  /\ (cachedResponses initState !! "8.8.8.8" = None ->
      trace s1 = trace s0 ++ [EvGet (shodanURL "8.8.8.8"); EvGet (ipinfoURL "8.8.8.8")])
  /\ (forall c, fst (processTarget W0 "" "dns.google" initState) = (c, None) ->
      (exists c0, cachedResponses s1 !! "8.8.8.8" = Some c0
                  /\ c = set_Target "dns.google" c0)
      /\ (cachedResponses initState !! "8.8.8.8" = None ->
          cachedResponses s1 = <["8.8.8.8" := c]> (cachedResponses initState))
      /\ gets (shodanURL "8.8.8.8") (trace s2) = gets (shodanURL "8.8.8.8") (trace s1)
      /\ gets (ipinfoURL "8.8.8.8") (trace s2) = gets (ipinfoURL "8.8.8.8") (trace s1))
  /\ (forall c e, fst (processTarget W0 "" "dns.google" initState) = (c, Some e) ->
      cachedResponses s1 = cachedResponses initState).
Proof.
  apply (C2_one_successful_fetch_pair_per_address W0 "" false "dns.google" "8.8.8.8").
  vm_compute. reflexivity.
Defined.


(** The same target with the geolocation service down and the scan
    database up: the error comes back although the security fetch
    succeeded, and nothing is written to the output. *)
Example geolocation_failure_alone_is_fatal :
  let W := world up down [] (Err "tty") in
  fst (processTarget W "" "8.8.8.8" initState)
  = (zeroCombined, Some "connection refused")
  /\ stdout (snd (processTargets W "" ["8.8.8.8"] false initState)) = []
  /\ stderr (snd (processTargets W "" ["8.8.8.8"] false initState))
     = ["Error processing target 8.8.8.8: connection refused" +:+ nl].
Proof. repeat split; vm_compute; reflexivity. Qed.

(** C4 fails as stated: in single-target mode a target that cannot be
    resolved leaves the output empty, where the claim has one object. *)
Lemma C4_counterexample_single_target_fails :
  let final := snd (main W0 "" ["nohost.invalid"] initState) in
  fst (collectTargets W0 ["nohost.invalid"] initState)
  = Some (["nohost.invalid"], true)
  /\ stdout final = []
  /\ length (stdout final) <> 1
  /\ stderr final
     = ["Error processing target nohost.invalid: lookup nohost.invalid: no such host"
        +:+ nl].
Proof.
  repeat split; try (vm_compute; reflexivity). vm_compute. discriminate.
Qed.

Lemma C4_witness :
  let targets := ["8.8.8.8"; "nohost.invalid"; "dns.google"] in
  let final := snd (processTargets W0 "" targets false initState) in
  let ok := successes (outcomes W0 "" false targets (cached ∅ initState)) in
  stdout final
  = stdout initState ++
    map (fun c => rendered W0 false c +:+ nl) ok
  /\ length (stdout final) = length (stdout initState) + length ok
  /\ (forall target, targets = [target] ->
      ok = match fst (processTarget W0 "" target (cached ∅ initState)) with
           | (c, None) => [c]
           | (_, Some _) => []
           end).
Proof.
  apply (C4_one_object_per_successful_target W0 ""
           ["8.8.8.8"; "nohost.invalid"; "dns.google"] false initState).
  exact W0_MarshalTotal.
Defined.

Lemma C5_witness :
  let s0 := snd (forTargets W0 "" false ["8.8.8.8"] (cached ∅ initState)) in
  let s2 := snd (processOne W0 "" false "nohost.invalid" s0) in
  stderr s2
  = stderr s0 ++ ["Error processing target " +:+ "nohost.invalid" +:+ ": "
                  +:+ "lookup nohost.invalid: no such host" +:+ nl]
  /\ stdout s2 = stdout s0
  /\ processTargets W0 "" (["8.8.8.8"] ++ "nohost.invalid" :: ["dns.google"]) false initState
     = forTargets W0 "" false ["dns.google"] s2.
Proof.
  eapply (C5_failed_target_reported_and_skipped W0 "" false ["8.8.8.8"] ["dns.google"]
            "nohost.invalid" "lookup nohost.invalid: no such host" zeroCombined initState).
  vm_compute. reflexivity.
Defined.

Lemma C6_witness :
  resolveTarget W0 "" "8.8.8.8" initState = (("8.8.8.8", None), initState)
  /\ lookups (trace (snd (processTarget W0 "" "8.8.8.8" initState)))
     = lookups (trace initState).
Proof.
  apply (C6_ip_literal_resolves_to_itself W0 "" "8.8.8.8" initState).
  vm_compute. reflexivity.
Defined.

Lemma C7_witness :
  let answer := net_LookupIPAddr W0 "" (now initState) "dns.google" in
  let out := fst (resolveTarget W0 "" "dns.google" initState) in
  (forall a rest, answer = Ok (a :: rest) -> out = (IPAddr_String a, None))
  /\ ((exists e, snd out = Some e) <-> ((exists e, answer = Err e) \/ answer = Ok []))
  /\ (forall e, answer = Err e -> snd out = Some e)
  /\ trace (snd (resolveTarget W0 "" "dns.google" initState))
     = trace initState ++ [EvLookup "dns.google"].
Proof.
  apply (C7_resolver_first_address_or_error W0 "" "dns.google" initState).
  vm_compute. reflexivity.
Defined.

(** C8 at the failing input: the line of the file reaches the pipeline
    with its blanks, where the line as the claim has it is trimmed; the
    blanks keep it from parsing as an address and from resolving. *)
Theorem C8_file_lines_are_not_trimmed :
  fst (collectTargets Wfile ["targets.txt"] initState) = Some ([" 8.8.8.8 "], false)
  /\ TrimSpace " 8.8.8.8 " = "8.8.8.8"
  /\ fst (collectTargets Wfile ["targets.txt"] initState)
     <> Some (map TrimSpace [" 8.8.8.8 "], false)
  /\ stdout (snd (main Wfile "" ["targets.txt"] initState)) = [].
Proof.
  repeat split; try (vm_compute; reflexivity). vm_compute. discriminate.
Qed.

Lemma C9_witness :
  collectTargets Wprintf [] initState
  = (Some (map (fun l => TrimSpace (l +:+ nl)) [], false), initState)
  /\ (@nil string = [] ->
      main Wprintf "" [] initState
      = Eprint ("[!] Hostinfo: No targets provided" +:+ nl) initState).
Proof.
  apply (C9_stdin_drops_unterminated_last_line Wprintf "" [] "8.8.8.8" initState).
  - constructor.
  - vm_compute. reflexivity.
  - reflexivity.
  - reflexivity.
Defined.

(** The same on two lines: the terminated one is a target, the other is
    lost, and only the first address is looked up. *)
Example stdin_two_lines :
  fst (collectTargets Wpipe [] initState) = Some (["8.8.8.8"], false)
  /\ trace (snd (main Wpipe "" [] initState))
     = [EvGet (shodanURL "8.8.8.8"); EvGet (ipinfoURL "8.8.8.8")].
Proof. split; vm_compute; reflexivity. Qed.

(** A file keeps its unterminated last line, unlike standard input. *)
Example file_two_lines :
  fst (scanLoop (NewScanner (mkStream ("8.8.8.8" +:+ nl +:+ "dns.google") io_EOF)) [])
  = ["8.8.8.8"; "dns.google"].
Proof. vm_compute. reflexivity. Qed.

Lemma C10_witness :
  let c0 := mkCombined "8.8.8.8" "8.8.8.8" (ipinfoOf "") zeroShodan in
  let s' := snd (processOne Wnoscan "" false "8.8.8.8" initState) in
  fst (processTarget Wnoscan "" "8.8.8.8" initState) = (c0, None)
  /\ cachedResponses s' !! "8.8.8.8" = Some c0
  /\ forall (later : list string) (target' : string),
       let s'' := snd (forTargets Wnoscan "" false later s') in
       cachedResponses s'' !! "8.8.8.8" = Some c0
       /\ gets (shodanURL "8.8.8.8") (trace s'') = gets (shodanURL "8.8.8.8") (trace s')
       /\ (fst (resolveTarget Wnoscan "" target' s'') = ("8.8.8.8", None) ->
           fst (processTarget Wnoscan "" target' s'') = (set_Target target' c0, None)
           /\ emb_Shodan (set_Target target' c0) = zeroShodan
           /\ trace (snd (processTarget Wnoscan "" target' s''))
              = trace (snd (resolveTarget Wnoscan "" target' s''))).
Proof.
  apply (C10_failed_security_fetch_is_cached Wnoscan "" false "8.8.8.8" "8.8.8.8"
           "connection refused" (ipinfoOf "") zeroShodan initState initState
           (logged [EvGet (shodanURL "8.8.8.8")] initState)
           (logged [EvGet (ipinfoURL "8.8.8.8")]
              (logged [EvGet (shodanURL "8.8.8.8")] initState)));
    vm_compute; reflexivity.
Defined.

End Runs.

(** ** The further properties on concrete inputs *)

Module Checks.

Import Sample MoreSamples.

Lemma replicateByte_length (n : nat) (c : ascii) :
  String.length (replicateByte n c) = n.
Proof. induction n as [|n IH]; simpl; [reflexivity|]. rewrite IH. reflexivity. Defined.

Lemma replicateByte_one_line (n : nat) (c : ascii) :
  Ascii.eqb c LF = false -> cutLine (replicateByte n c) = None.
Proof.
  intros H. induction n as [|n IH]; simpl; [reflexivity|].
  rewrite H, IH. reflexivity.
Defined.

Lemma X1_witness :
  let s0 := snd (forTargets W0 "" false ["8.8.8.8"] (cached ∅ initState)) in
  let c := mkCombined "dns.google" "8.8.8.8" (ipinfoOf "") (shodanOf "") in
  cacheKeyed (cachedResponses s0)
  /\ Target c = "dns.google"
  /\ fst (resolveTarget W0 "" "dns.google" s0) = (IP c, None).
Proof.
  apply (X1_record_names_target_and_resolved_address W0 "" false ["8.8.8.8"]
           "dns.google"
           (mkCombined "dns.google" "8.8.8.8" (ipinfoOf "") (shodanOf "")) initState).
  vm_compute. reflexivity.
Defined.

Lemma X21_witness :
  let targets := ["8.8.8.8"; "nohost.invalid"; "empty.example"; "dns.google"] in
  stderr (snd (processTargets W0 "" targets false initState))
  = stderr initState
    ++ failureLines targets (outcomes W0 "" false targets (cached ∅ initState)).
Proof.
  apply (X21_error_stream_lists_failed_targets W0 ""
           ["8.8.8.8"; "nohost.invalid"; "empty.example"; "dns.google"] false initState).
  exact Runs.W0_MarshalTotal.
Defined.

Lemma X22_witness :
  processTargets W0 "9.9.9.9" ["8.8.8.8"; "1.1.1.1"; "8.8.8.8"] false initState
  = processTargets W0 "" ["8.8.8.8"; "1.1.1.1"; "8.8.8.8"] false initState.
Proof.
  apply (X22_resolver_flag_is_for_names_only W0 "9.9.9.9" ""
           ["8.8.8.8"; "1.1.1.1"; "8.8.8.8"] false initState).
  repeat constructor.
Defined.

Lemma X3_witness :
  let s' := snd (processOne Wnoindent "" false "8.8.8.8" initState) in
  stdout s' = stdout initState
  /\ stderr s' = stderr initState
                 ++ ["Error marshalling data for target " +:+ "8.8.8.8" +:+ ": "
                     +:+ "json: error calling MarshalJSON" +:+ nl]
  /\ cachedResponses s'
     = cachedResponses (snd (processTarget Wnoindent "" "8.8.8.8" initState)).
Proof.
  apply (X3_indent_failure_suppresses_output Wnoindent "" false "8.8.8.8"
           "json: error calling MarshalJSON" c8 initState);
    vm_compute; reflexivity.
Defined.

Lemma X7_witness :
  let c := mkCombined "dns.google" "8.8.8.8" (ipinfoOf "") (shodanOf "") in
  exists c0,
    cachedResponses
      (snd (processTargets W0 "" ["8.8.8.8"; "dns.google"] false initState)) !! IP c
    = Some c0
    /\ IP c0 = IP c
    /\ emb_IPInfo c0 = emb_IPInfo c
    /\ emb_Shodan c0 = emb_Shodan c.
Proof.
  apply (X7_returned_records_stay_cached W0 "" ["8.8.8.8"; "dns.google"] false initState).
  vm_compute. apply list_elem_of_further, list_elem_of_here.
Defined.

Lemma X8_witness :
  let c1 := mkCombined "8.8.8.8" "8.8.8.8" (ipinfoOf "") (shodanOf "") in
  let c2 := mkCombined "dns.google" "8.8.8.8" (ipinfoOf "") (shodanOf "") in
  emb_IPInfo c1 = emb_IPInfo c2 /\ emb_Shodan c1 = emb_Shodan c2.
Proof.
  apply (X8_same_address_same_enrichment W0 "" ["8.8.8.8"; "dns.google"] false initState).
  - vm_compute. apply list_elem_of_here.
  - vm_compute. apply list_elem_of_further, list_elem_of_here.
  - reflexivity.
Defined.

Lemma X10_witness :
  let final := snd (main W0 "" [] initState) in
  stderr final
  = stderr initState
    ++ ["[!] Usage: " +:+ os_Args0 W0 +:+ " [file|target]" +:+ nl;
        "If no arguments are provided, targets will be read from stdin." +:+ nl;
        "Options:" +:+ nl;
        flag_PrintDefaults W0]
  /\ stdout final = stdout initState
  /\ trace final = trace initState
  /\ cachedResponses final = cachedResponses initState.
Proof.
  apply (X10_terminal_prints_usage_only W0 "" initState). reflexivity.
Defined.

Lemma X11_witness :
  let final := snd (main Wbadpipe "" [] initState) in
  trace final = trace initState
  /\ stdout final = stdout initState
  /\ cachedResponses final = cachedResponses initState
  /\ length (stderr initState) < length (stderr final).
Proof.
  apply (X11_no_target_no_work Wbadpipe "" [] initState).
  intros t ts b. vm_compute. discriminate.
Defined.

Lemma X12_witness :
  main Wbadpipe "" [] initState
  = Eprint ("Error reading stdin: " +:+ "read /dev/stdin: input/output error" +:+ nl)
           initState.
Proof.
  apply (X12_stdin_read_failure_aborts Wbadpipe "" ("8.8.8.8" +:+ nl +:+ "dns.goo"));
    reflexivity.
Defined.

Lemma X13_witness :
  exists msg,
    (msg = "read bad.txt: input/output error" \/ msg = ErrTooLong)
    /\ main Wfiles "" ["bad.txt"] initState
       = Eprint ("Error reading file: " +:+ msg +:+ nl) initState.
Proof.
  apply (X13_file_read_failure_aborts Wfiles "" "bad.txt"
           ("8.8.8.8" +:+ nl +:+ "dns.goo"));
    reflexivity.
Defined.

Lemma X14_witness :
  main Wfiles "" ["long.txt"] initState
  = Eprint ("Error reading file: " +:+ "bufio.Scanner: token too long" +:+ nl) initState.
Proof.
  apply (X14_line_too_long_rejects_file Wfiles "" "long.txt" longLine EmptyString
           ["8.8.8.8"] [] io_EOF initState).
  - reflexivity.
  - reflexivity.
  - repeat constructor.
  - apply replicateByte_one_line. reflexivity.
  - unfold longLine. rewrite replicateByte_length, N2Nat.id. reflexivity.
  - left. reflexivity.
Defined.

Lemma X15_witness :
  collectTargets Wfiles ["plain.txt"; "ignored"] initState
  = (Some (map dropCR [" 8.8.8.8 "; ""]
             ++ (if decide ("dns.google" = EmptyString) then [] else [dropCR "dns.google"]),
           false), initState).
Proof.
  apply (X15_file_lines_are_targets_as_written Wfiles "plain.txt" "dns.google"
           [" 8.8.8.8 "; ""] ["ignored"] initState).
  - reflexivity.
  - reflexivity.
  - repeat constructor.
  - split; reflexivity.
Defined.

Lemma X16_witness :
  collectTargets Wdosunix ["dos.txt"] initState
  = (Some (["8.8.8.8"; "dns.google"], false), initState)
  /\ collectTargets Wdosunix ["unix.txt"] initState
     = (Some (map dropCR ["8.8.8.8"; "dns.google"], false), initState)
  /\ (Forall (fun l => dropCR l = l) ["8.8.8.8"; "dns.google"] ->
      collectTargets Wdosunix ["unix.txt"] initState
      = collectTargets Wdosunix ["dos.txt"] initState).
Proof.
  apply (X16_file_with_CRLF_line_ends Wdosunix "dos.txt" "unix.txt"
           ["8.8.8.8"; "dns.google"] [] [] initState).
  - reflexivity.
  - reflexivity.
  - reflexivity.
  - reflexivity.
  - repeat constructor.
Defined.

(** A line that ends in a carriage return of its own keeps it in the
    file with Windows line ends and loses it in the file with plain
    line feeds: the two files then differ. *)
Example CR_of_the_line_itself :
  fst (collectTargets Wdosunix ["cr-dos.txt"] initState)
  = Some (["a" +:+ String CR EmptyString], false)
  /\ fst (collectTargets Wdosunix ["cr-unix.txt"] initState) = Some (["a"], false).
Proof. split; vm_compute; reflexivity. Qed.

Lemma X17_witness :
  collectTargets Wpipedos [] initState
  = (Some (map TrimSpace [" 8.8.8.8"; "dns.google "], false), initState).
Proof.
  apply (X17_stdin_targets_are_trimmed_lines Wpipedos true
           [" 8.8.8.8"; "dns.google "] "1.1.1.1" initState).
  - repeat constructor.
  - reflexivity.
  - reflexivity.
  - reflexivity.
Defined.

End Checks.
